(** * SourceLoupe: the ScanManager rule-evaluation engine

    A shallow embedding of [src/core/ScanManager.ts] (the current engine) and
    of the parts of the older compiled variant [src/core/ScanManager.js] that
    the specification also draws on (its query composition and its
    [DumpResult] record).

    JavaScript effects are explicit: an operation is a function from the
    program state to a new state and either a value or a thrown error.
    Strings are sequences of 8-bit code units ([string]); offsets are [nat];
    the numeric [Priority] is an integer ([Z]). *)

From Stdlib Require Import ZArith List String Ascii Bool Lia DecimalString.
From stdpp Require Import base list strings.

Local Open Scope Z_scope.
Local Open Scope nat_scope.

(** ** Errors and the state-and-exception monad *)

(** A thrown JavaScript value, as the text it prints to. *)
Definition Exn : Type := string.

Inductive result (A : Type) : Type :=
| Ok (a : A)
| Throw (e : Exn).
Arguments Ok {A} a.
Arguments Throw {A} e.

(** A computation over a state [S]: the state changes made before a throw
    stay, as in JavaScript. *)
Definition M (S A : Type) : Type := S -> S * result A.

Definition ret {S A : Type} (a : A) : M S A := fun s => (s, Ok a).

Definition bind {S A B : Type} (m : M S A) (k : A -> M S B) : M S B :=
  fun s =>
    match m s with
    | (s', Ok a) => k a s'
    | (s', Throw e) => (s', Throw e)
    end.

(** [try { m } catch (e) { h e }] *)
Definition try_catch {S A : Type} (m : M S A) (h : Exn -> M S A) : M S A :=
  fun s =>
    match m s with
    | (s', Ok a) => (s', Ok a)
    | (s', Throw e) => h e s'
    end.

Definition modify {S : Type} (f : S -> S) : M S unit := fun s => (f s, Ok tt).

(** Lifts a computation on a part [T] of the state [S]. *)
Definition zoom {S T A : Type} (get : S -> T) (set : T -> S -> S) (m : M T A) : M S A :=
  fun s => let (t', r) := m (get s) in (set t' s, r).

Declare Scope js_scope.
Delimit Scope js_scope with js.
Notation "'let*' x ':=' m 'in' k" := (bind m (fun x => k))
  (at level 10, x name, m at level 100, k at level 200) : js_scope.
Notation "m '>>' k" := (bind m (fun _ => k))
  (at level 90, right associativity) : js_scope.

(** [xs.forEach(f)] *)
Fixpoint forEach {S A : Type} (xs : list A) (f : A -> M S unit) : M S unit :=
  match xs with
  | [] => ret tt
  | x :: xs' => bind (f x) (fun _ => forEach xs' f)
  end.

(** ** JavaScript strings *)

(** The double-quote character. *)
Definition dquote : string := String "034"%char EmptyString.

(** [s.includes(sub)] *)
Fixpoint includes (s sub : string) : bool :=
  if String.prefix sub s then true
  else match s with
       | EmptyString => false
       | String _ s' => includes s' sub
       end.

(** [s.substring(a, b)] for non-negative integer arguments: both are clamped
    to the length and swapped when out of order. *)
Definition js_substring (s : string) (a b : nat) : string :=
  let a' := Nat.min a (String.length s) in
  let b' := Nat.min b (String.length s) in
  String.substring (Nat.min a' b') (Nat.max a' b' - Nat.min a' b') s.

(** ** JSON.stringify, for the values the engine serialises *)

Definition backslash : string := String "092"%char EmptyString.

Definition hexDigit (n : nat) : string :=
  String.substring n 1 "0123456789abcdef".

(** One code unit inside a JSON string literal (ECMAScript QuoteJSONString). *)
Definition json_escape (c : ascii) : string :=
  let n := nat_of_ascii c in
  if Nat.eqb n 8 then backslash +:+ "b"
  else if Nat.eqb n 9 then backslash +:+ "t"
  else if Nat.eqb n 10 then backslash +:+ "n"
  else if Nat.eqb n 12 then backslash +:+ "f"
  else if Nat.eqb n 13 then backslash +:+ "r"
  else if Nat.eqb n 34 then backslash +:+ dquote
  else if Nat.eqb n 92 then backslash +:+ backslash
  else if Nat.ltb n 32 then backslash +:+ "u00" +:+ hexDigit (n / 16) +:+ hexDigit (n mod 16)
  else String c EmptyString.

Fixpoint json_escape_string (s : string) : string :=
  match s with
  | EmptyString => EmptyString
  | String c s' => json_escape c +:+ json_escape_string s'
  end.

Definition json_string (s : string) : string :=
  dquote +:+ json_escape_string s +:+ dquote.

Definition json_number (n : nat) : string :=
  NilEmpty.string_of_uint (Nat.to_uint n).

Definition json_array (items : list string) : string :=
  "[" +:+ String.concat "," items +:+ "]".

(** [JSON.stringify] of an array of strings. *)
Definition JSON_stringify_strings (xs : list string) : string :=
  json_array (map json_string xs).

(** ** tree-sitter: the values the engine handles *)

Module TreeSitter.

Record SyntaxNode : Type := {
  type : string;
  startIndex : nat;
  endIndex : nat;
  text : string
}.

Record QueryCapture : Type := {
  name : string;
  node : SyntaxNode
}.

Record QueryMatch : Type := {
  pattern : nat;
  captures_of : list QueryCapture
}.

Record Tree : Type := {
  rootNode : SyntaxNode
}.

(** A compiled query: [query.captures(node)] and [query.matches(node)]. *)
Record Query : Type := {
  captures : SyntaxNode -> result (list QueryCapture);
  matches : SyntaxNode -> result (list QueryMatch)
}.

End TreeSitter.
Import TreeSitter.

(** ** The host environment

    What the engine imports and this repository does not define: tree-sitter's
    grammar type and query compiler, and from [sourceloupe-types] the finding
    type and the numeric value of [ResultType.VIOLATION]. [Store] is the
    mutable state that the rule callbacks (closures) can read and write. *)

Class Host : Type := {
  Language : Type;
  ScanResult : Type;
  Store : Type;
  (** [new TreeSitter.Query(language, text)]: throws on a malformed pattern. *)
  Query_new : Language -> string -> result TreeSitter.Query;
  (** [ResultType.VIOLATION] *)
  VIOLATION : Z
}.

(** ** Rules *)

(** The data fields of a [ScanRule] that the engine reads or writes. *)
Record RuleFields : Type := {
  Name : string;
  Category : string;
  Context : option string;
  Query : string;
  RegEx : option string;
  Priority : Z
}.

Definition setPriority (f : RuleFields) (p : Z) : RuleFields :=
  {| Name := Name f; Category := Category f; Context := Context f;
     Query := Query f; RegEx := RegEx f; Priority := p |}.

Section Rules.
Context `{Host}.

(** A method of a rule: it receives the rule's fields ([this]) and its
    argument, may read and write the store, and returns or throws. *)
Definition Callback (A B : Type) : Type :=
  RuleFields -> A -> Store -> Store * result B.

Record ScanRule : Type := {
  fields : RuleFields;
  preFilter : Callback SyntaxNode SyntaxNode;
  measureNodes : Callback (list SyntaxNode) unit;
  validateNodes : Callback (list SyntaxNode) (list ScanResult);
  validateNode : Callback SyntaxNode (list ScanResult)
}.

Definition setFields (r : ScanRule) (f : RuleFields) : ScanRule :=
  {| fields := f; preFilter := preFilter r; measureNodes := measureNodes r;
     validateNodes := validateNodes r; validateNode := validateNode r |}.

(** Modelled from the spec: the [ScanRule] base class of [sourceloupe-types]
    is not among the sources; a rule that supplies no pre-filter keeps the
    inherited one, which the spec gives as the identity. *)
Definition defaultPreFilter : Callback SyntaxNode SyntaxNode :=
  fun _ root st => (st, Ok root).

(** ** Program state *)

Record ScanManager : Type := {
  treeSitterNodeTree : Tree;
  treeSitterLanguage : Language;
  scannerRules : list ScanRule;
  sourceCodeToScan : string
}.

Inductive Method : Type :=
| M_preFilter | M_measureNodes | M_validateNodes | M_validateNode.

(** Ghost log of the calls that leave the engine: rule [i]'s method with the
    fields it sees as [this] and the nodes it is given, a query compilation,
    a query execution over a scope node. *)
Inductive Event : Type :=
| EvCall (m : Method) (i : nat) (self : RuleFields) (args : list SyntaxNode)
| EvQueryNew (queryText : string)
| EvCaptures (queryText : string) (scope : SyntaxNode)
| EvMatches (queryText : string) (scope : SyntaxNode).

Record State : Type := {
  this : ScanManager;
  store : Store;
  console : list string;
  trace : list Event
}.

(** The state inside [commonScan]: the heap and the local array. *)
Record Frame : Type := {
  heap : State;
  scanResultList : list ScanResult
}.

Definition setRules (m : ScanManager) (rs : list ScanRule) : ScanManager :=
  {| treeSitterNodeTree := treeSitterNodeTree m;
     treeSitterLanguage := treeSitterLanguage m;
     scannerRules := rs;
     sourceCodeToScan := sourceCodeToScan m |}.

(** [console.error(msg)] and [console.log(msg)] *)
Definition console_write (msg : string) : M State unit :=
  modify (fun st => {| this := this st; store := store st;
                       console := console st ++ [msg]; trace := trace st |}).

(** [rule.m(a)] for the rule at index [i], whose fields are [self]. *)
Definition invoke {A B : Type} (m : Method) (i : nat) (self : RuleFields)
    (args : list SyntaxNode) (cb : Callback A B) (a : A) : M State B :=
  fun st =>
    let (s', r) := cb self a (store st) in
    ({| this := this st; store := s'; console := console st;
        trace := trace st ++ [EvCall m i self args] |}, r).

(** [new TreeSitter.Query(this.treeSitterLanguage, queryText)] *)
Definition newQuery (queryText : string) : M State TreeSitter.Query :=
  fun st =>
    ({| this := this st; store := store st; console := console st;
        trace := trace st ++ [EvQueryNew queryText] |},
     Query_new (treeSitterLanguage (this st)) queryText).

(** [query.captures(scope)] *)
Definition runCaptures (queryText : string) (q : TreeSitter.Query) (scope : SyntaxNode)
    : M State (list QueryCapture) :=
  fun st =>
    ({| this := this st; store := store st; console := console st;
        trace := trace st ++ [EvCaptures queryText scope] |},
     captures q scope).

(** [query.matches(scope)] *)
Definition runMatches (queryText : string) (q : TreeSitter.Query) (scope : SyntaxNode)
    : M State (list QueryMatch) :=
  fun st =>
    ({| this := this st; store := store st; console := console st;
        trace := trace st ++ [EvMatches queryText scope] |},
     matches q scope).

(** [rule.Priority = p] on the rule object at index [i] of the rule array. *)
Definition writePriority (i : nat) (p : Z) : M State unit :=
  modify (fun st =>
    match scannerRules (this st) !! i with
    | Some r =>
        {| this := setRules (this st)
                     (<[i := setFields r (setPriority (fields r) p)]> (scannerRules (this st)));
           store := store st; console := console st; trace := trace st |}
    | None => st
    end).

Definition onHeap {A : Type} (m : M State A) : M Frame A :=
  zoom heap (fun h fr => {| heap := h; scanResultList := scanResultList fr |}) m.

(** [scanResultList.push(...xs)] *)
Definition push (xs : list ScanResult) : M Frame unit :=
  modify (fun fr => {| heap := heap fr; scanResultList := scanResultList fr ++ xs |}).

(** ** ScanManager.ts *)

Local Open Scope js_scope.

(** Line 85: the ternary that normalises the priority. *)
Definition normalizePriority (p : Z) : Z :=
  if (p >? VIOLATION)%Z then VIOLATION else p.

(** A string used as a condition: [undefined] and the empty string are falsy. *)
Definition truthy (s : option string) : bool :=
  match s with
  | Some EmptyString => false
  | Some _ => true
  | None => false
  end.

(** Line 86: the template literal that composes the query text. *)
Definition composeQuery (f : RuleFields) : string :=
  Query f +:+
  (if truthy (RegEx f)
   then "(#match? @exp " +:+ dquote +:+ default EmptyString (RegEx f) +:+ dquote +:+ ")"
   else EmptyString).

(** Line 100: [rule.Context ?? 'scan'] *)
Definition ruleContext (f : RuleFields) : string := default "scan" (Context f).

(** Lines 89-110: the body of the [try] block, for the rule object [rule]
    at index [i], after its priority was written. *)
Definition tryBody (i : nat) (rule : ScanRule) (queryText : string) : M Frame unit :=
  let self := fields rule in
  let* root := (fun fr => (fr, Ok (rootNode (treeSitterNodeTree (this (heap fr)))))) in
  let* filteredRoot := onHeap (invoke M_preFilter i self [root] (preFilter rule) root) in
  let* query := onHeap (newQuery queryText) in
  let* captures := onHeap (runCaptures queryText query filteredRoot) in
  let capturedNodes := map node captures in
  (if includes (ruleContext self) "measure"
   then onHeap (invoke M_measureNodes i self capturedNodes (measureNodes rule) capturedNodes)
   else ret tt) >>
  let* found := onHeap (invoke M_validateNodes i self capturedNodes
                          (validateNodes rule) capturedNodes) in
  push found >>
  forEach capturedNodes (fun n =>
    let* found := onHeap (invoke M_validateNode i self [n] (validateNode rule) n) in
    push found).

(** Lines 111-114: the [catch] clause. *)
Definition catchClause (treeSitterError : Exn) : M Frame unit :=
  onHeap (console_write ("A tree-sitter query error occurred: " +:+ treeSitterError)).

(** Lines 82-114: one iteration of the [for ... of] loop, on the element at
    index [i] of the rule array. *)
Definition evalRule (i : nat) : M Frame unit :=
  fun fr =>
    match scannerRules (this (heap fr)) !! i with
    | None => (fr, Ok tt)
    | Some rule0 =>
        let p := normalizePriority (Priority (fields rule0)) in
        let rule := setFields rule0 (setPriority (fields rule0) p) in
        (onHeap (writePriority i p) >>
         let queryText := composeQuery (fields rule) in
         try_catch (tryBody i rule queryText) catchClause) fr
    end.

(** Line 81: the iterator over the array, from index [i], [n] elements. *)
Fixpoint forOf (i n : nat) : M Frame unit :=
  match n with
  | 0 => ret tt
  | S n' => evalRule i >> forOf (S i) n'
  end.

(** Lines 76-117 *)
Definition commonScan : M State (list ScanResult) :=
  fun st =>
    let contextRules := scannerRules (this st) in
    match forOf 0 (length contextRules) {| heap := st; scanResultList := [] |} with
    | (fr, Ok _) => (heap fr, Ok (scanResultList fr))
    | (fr, Throw e) => (heap fr, Throw e)
    end.

(** Lines 55-57: [return this.commonScan()]. The promise an [async] method
    returns is modelled by its outcome: [Ok] when it resolves, [Throw] when
    it rejects. *)
Definition measure : M State (list ScanResult) := commonScan.

(** Lines 65-67: [return await this.commonScan()]. *)
Definition scan : M State (list ScanResult) :=
  let* found := commonScan in
  ret found.

(** Lines 37-49 *)
Definition dump (queryString : string) : M State string :=
  let queryString :=
    if String.eqb queryString EmptyString then "(class_declaration @decl)" else queryString in
  let* root := (fun st => (st, Ok (rootNode (treeSitterNodeTree (this st))))) in
  let* query := newQuery queryString in
  let* globalCaptures := runCaptures queryString query root in
  let result :=
    map (fun capture => "@" +:+ name capture +:+ "=" +:+ text (node capture)) globalCaptures in
  ret (JSON_stringify_strings result).

(** ** The finding list in closed form

    The list the specification describes, written as a function of the rule
    list: rule by rule, the findings of the bulk validator and then those of
    the per-node validator in capture order. The store is threaded through
    the callbacks in call order. *)

(** The rule object as the loop body leaves it. *)
Definition normalizeRule (r : ScanRule) : ScanRule :=
  setFields r (setPriority (fields r) (normalizePriority (Priority (fields r)))).

(** Pre-filter the root, compile the composed query, execute it over the
    scope, and keep the nodes of the captures in the order returned. *)
Definition capturedNodes (lang : Language) (root : SyntaxNode) (r : ScanRule) (s : Store)
    : Store * result (list SyntaxNode) :=
  match preFilter r (fields r) root s with
  | (s1, Ok scope) =>
      match Query_new lang (composeQuery (fields r)) with
      | Ok q =>
          match captures q scope with
          | Ok caps => (s1, Ok (map node caps))
          | Throw e => (s1, Throw e)
          end
      | Throw e => (s1, Throw e)
      end
  | (s1, Throw e) => (s1, Throw e)
  end.

(** The measurement step: only for a rule whose context names [measure]. *)
Definition measureStep (r : ScanRule) (nodes : list SyntaxNode) (s : Store)
    : Store * result unit :=
  if includes (ruleContext (fields r)) "measure"
  then measureNodes r (fields r) nodes s
  else (s, Ok tt).

(** The findings of the per-node validator, node by node, up to the first
    call that throws. *)
Fixpoint perNodeFindings (r : ScanRule) (nodes : list SyntaxNode) (s : Store)
    : Store * list ScanResult :=
  match nodes with
  | [] => (s, [])
  | n :: ns =>
      match validateNode r (fields r) n s with
      | (s1, Ok found) =>
          let (s2, rest) := perNodeFindings r ns s1 in (s2, found ++ rest)
      | (s1, Throw _) => (s1, [])
      end
  end.

(** What one rule adds to the finding list. *)
Definition ruleFindings (lang : Language) (root : SyntaxNode) (r : ScanRule) (s : Store)
    : Store * list ScanResult :=
  match capturedNodes lang root r s with
  | (s1, Ok nodes) =>
      match measureStep r nodes s1 with
      | (s2, Ok _) =>
          match validateNodes r (fields r) nodes s2 with
          | (s3, Ok found) =>
              let (s4, perNode) := perNodeFindings r nodes s3 in (s4, found ++ perNode)
          | (s3, Throw _) => (s3, [])
          end
      | (s2, Throw _) => (s2, [])
      end
  | (s1, Throw _) => (s1, [])
  end.

Fixpoint specFindings (lang : Language) (root : SyntaxNode) (rules : list ScanRule) (s : Store)
    : Store * list ScanResult :=
  match rules with
  | [] => (s, [])
  | r :: rs =>
      let (s1, found) := ruleFindings lang root (normalizeRule r) s in
      let (s2, rest) := specFindings lang root rs s1 in
      (s2, found ++ rest)
  end.

(** ** The calls and console lines of a run in closed form

    The ghost log and the console, as functions of the rule list, beside
    [specFindings]. *)

Fixpoint perNodeEvents (i : nat) (r : ScanRule) (nodes : list SyntaxNode) (s : Store)
    : list Event :=
  match nodes with
  | [] => []
  | n :: ns =>
      EvCall M_validateNode i (fields r) [n] ::
      match validateNode r (fields r) n s with
      | (s1, Ok _) => perNodeEvents i r ns s1
      | (_, Throw _) => []
      end
  end.

(** The error the per-node loop stops on, if any. *)
Fixpoint perNodeError (r : ScanRule) (nodes : list SyntaxNode) (s : Store) : option Exn :=
  match nodes with
  | [] => None
  | n :: ns =>
      match validateNode r (fields r) n s with
      | (s1, Ok _) => perNodeError r ns s1
      | (_, Throw e) => Some e
      end
  end.

Definition measureEvents (i : nat) (r : ScanRule) (nodes : list SyntaxNode) : list Event :=
  if includes (ruleContext (fields r)) "measure"
  then [EvCall M_measureNodes i (fields r) nodes]
  else [].

(** The calls made after the query was executed. *)
Definition dispatchEvents (i : nat) (r : ScanRule) (nodes : list SyntaxNode) (s : Store)
    : list Event :=
  measureEvents i r nodes ++
  match measureStep r nodes s with
  | (s2, Ok _) =>
      EvCall M_validateNodes i (fields r) nodes ::
      match validateNodes r (fields r) nodes s2 with
      | (s3, Ok _) => perNodeEvents i r nodes s3
      | (_, Throw _) => []
      end
  | (_, Throw _) => []
  end.

Definition ruleEvents (i : nat) (lang : Language) (root : SyntaxNode) (r : ScanRule) (s : Store)
    : list Event :=
  EvCall M_preFilter i (fields r) [root] ::
  match preFilter r (fields r) root s with
  | (s1, Ok scope) =>
      EvQueryNew (composeQuery (fields r)) ::
      match Query_new lang (composeQuery (fields r)) with
      | Ok q =>
          EvCaptures (composeQuery (fields r)) scope ::
          match captures q scope with
          | Ok caps => dispatchEvents i r (map node caps) s1
          | Throw _ => []
          end
      | Throw _ => []
      end
  | (_, Throw _) => []
  end.

(** The error the [catch] clause receives, if the [try] block throws. *)
Definition ruleError (lang : Language) (root : SyntaxNode) (r : ScanRule) (s : Store)
    : option Exn :=
  match capturedNodes lang root r s with
  | (s1, Ok nodes) =>
      match measureStep r nodes s1 with
      | (s2, Ok _) =>
          match validateNodes r (fields r) nodes s2 with
          | (s3, Ok _) => perNodeError r nodes s3
          | (_, Throw e) => Some e
          end
      | (_, Throw e) => Some e
      end
  | (_, Throw e) => Some e
  end.

Definition ruleConsole (lang : Language) (root : SyntaxNode) (r : ScanRule) (s : Store)
    : list string :=
  match ruleError lang root r s with
  | Some e => ["A tree-sitter query error occurred: " +:+ e]
  | None => []
  end.

Fixpoint specEvents (i : nat) (lang : Language) (root : SyntaxNode) (rules : list ScanRule)
    (s : Store) : list Event :=
  match rules with
  | [] => []
  | r :: rs =>
      ruleEvents i lang root (normalizeRule r) s ++
      specEvents (S i) lang root rs (fst (ruleFindings lang root (normalizeRule r) s))
  end.

Fixpoint specConsole (lang : Language) (root : SyntaxNode) (rules : list ScanRule) (s : Store)
    : list string :=
  match rules with
  | [] => []
  | r :: rs =>
      ruleConsole lang root (normalizeRule r) s ++
      specConsole lang root rs (fst (ruleFindings lang root (normalizeRule r) s))
  end.

(** A frame after some callbacks ran: the store replaced, and the console,
    the log and the finding list extended. *)
Definition extend (fr : Frame) (s : Store) (msgs : list string) (evs : list Event)
    (found : list ScanResult) : Frame :=
  {| heap := {| this := this (heap fr); store := s;
                console := console (heap fr) ++ msgs;
                trace := trace (heap fr) ++ evs |};
     scanResultList := scanResultList fr ++ found |}.

Definition withRules (fr : Frame) (rs : list ScanRule) : Frame :=
  {| heap := {| this := setRules (this (heap fr)) rs; store := store (heap fr);
                console := console (heap fr); trace := trace (heap fr) |};
     scanResultList := scanResultList fr |}.

(** The call events of rule [i] carry its index and the fields [f]. *)
Definition callOf (i : nat) (f : RuleFields) (e : Event) : Prop :=
  match e with
  | EvCall _ j self _ => j = i /\ self = f
  | _ => True
  end.

Definition isMeasureCall (e : Event) : bool :=
  match e with
  | EvCall M_measureNodes _ _ _ => true
  | _ => false
  end.

(** The calls logged while [op] runs from [st]. *)
Definition callsDuring {A : Type} (op : M State A) (st : State) : list Event :=
  drop (length (trace st)) (trace (fst (op st))).

(** A callback whose outcome (the value returned or the error thrown) does
    not depend on the store. *)
Definition storeIndependent {A B : Type} (cb : Callback A B) : Prop :=
  forall self a s s', snd (cb self a s) = snd (cb self a s').

(** A rule whose findings do not depend on the store. *)
Definition storeIndependentRule (r : ScanRule) : Prop :=
  storeIndependent (preFilter r) /\ storeIndependent (measureNodes r) /\
  storeIndependent (validateNodes r) /\ storeIndependent (validateNode r).

(** A pure callback: it also leaves the store as it found it. *)
Definition pureCallback {A B : Type} (cb : Callback A B) : Prop :=
  storeIndependent cb /\ forall self a s, fst (cb self a s) = s.

(** A rule with pure validators: [validateNodes] and [validateNode] are pure. *)
Definition pureValidators (r : ScanRule) : Prop :=
  pureCallback (validateNodes r) /\ pureCallback (validateNode r).

(** A rule whose evaluation can be repeated: its validators are pure, and
    what its pre-filter and its measurement callback return or throw does not
    depend on the store (both may write to it). *)
Definition repeatableRule (r : ScanRule) : Prop :=
  pureValidators r /\ storeIndependent (preFilter r) /\ storeIndependent (measureNodes r).

(** ** The finding list as the specification words it *)

(** A successful rule: its [try] block runs to the end, so that the [catch]
    clause is not entered. *)
Definition successful (lang : Language) (root : SyntaxNode) (r : ScanRule) (s : Store) : bool :=
  match ruleError lang root r s with
  | None => true
  | Some _ => false
  end.

(** The concatenation, in rule order, of what the successful rules found:
    the findings of [validateNodes] followed by those of [validateNode] in
    capture order; a rule that is not successful contributes nothing. The
    store is threaded through the rules as the run threads it. *)
Fixpoint claimedFindings (lang : Language) (root : SyntaxNode) (rules : list ScanRule)
    (s : Store) : list ScanResult :=
  match rules with
  | [] => []
  | r :: rs =>
      (if successful lang root (normalizeRule r) s
       then snd (ruleFindings lang root (normalizeRule r) s)
       else []) ++
      claimedFindings lang root rs (fst (ruleFindings lang root (normalizeRule r) s))
  end.

(** A callback that returns on every argument, whatever the store. *)
Definition neverThrows {A B : Type} (cb : Callback A B) : Prop :=
  forall self a s, exists b, snd (cb self a s) = Ok b.

End Rules.

(** ** ScanManager.js: the older variant *)

Module Legacy.

(** Lines 100-106 *)
Record DumpResult : Type := {
  SourceFragment : string;
  StartIndex : nat;
  EndIndex : nat
}.

Definition DumpResult_new (n : SyntaxNode) (source : string) : DumpResult :=
  {| SourceFragment := js_substring source (startIndex n) (endIndex n);
     StartIndex := startIndex n;
     EndIndex := endIndex n |}.

(** [JSON.stringify] of a [DumpResult]: its own properties in creation order. *)
Definition json_DumpResult (d : DumpResult) : string :=
  "{" +:+ json_string "SourceFragment" +:+ ":" +:+ json_string (SourceFragment d) +:+ "," +:+
  json_string "StartIndex" +:+ ":" +:+ json_number (StartIndex d) +:+ "," +:+
  json_string "EndIndex" +:+ ":" +:+ json_number (EndIndex d) +:+ "}".

Definition JSON_stringify_DumpResults (ds : list DumpResult) : string :=
  json_array (map json_DumpResult ds).

(** Lines 63-71: query composition in [_scan]. *)
Definition composeQuery (f : RuleFields) : string :=
  let queryText := Query f in
  match RegEx f with
  | Some _ =>
      let regExInsert :=
        match RegEx f with
        | None => EmptyString
        | Some r => "(#match? @exp " +:+ dquote +:+ r +:+ dquote +:+ ")"
        end in
      queryText +:+ regExInsert
  | None => queryText
  end.

Section Rules.
Context `{Host}.
Local Open Scope js_scope.

(** Lines 18-33: the records are printed to the console; nothing is
    returned. The fields [_language], [_nodeTree] and [_sourceCode] are read
    from the corresponding fields of [ScanManager]. *)
Definition dump (queryString : string) : M State unit :=
  let queryString :=
    if String.eqb queryString EmptyString then "(class_declaration @decl)" else queryString in
  let* root := (fun st => (st, Ok (rootNode (treeSitterNodeTree (this st))))) in
  let* source := (fun st => (st, Ok (sourceCodeToScan (this st)))) in
  let* query := newQuery queryString in
  let* found := runMatches queryString query root in
  let result :=
    flat_map (fun m => map (fun capture => DumpResult_new (node capture) source) (captures_of m))
             found in
  console_write (JSON_stringify_DumpResults result).

End Rules.
End Legacy.

(** ** [dump] in closed form, and the statements of the specification *)

(** The query [dump] runs: the class-declaration pattern for the empty string. *)
Definition dumpQuery (queryString : string) : string :=
  if String.eqb queryString EmptyString then "(class_declaration @decl)" else queryString.

(** The entry [dump] makes for a capture. *)
Definition dumpEntry (capture : QueryCapture) : string :=
  "@" +:+ name capture +:+ "=" +:+ text (node capture).

(** The value of [dump] as the specification words it: the serialised list
    of the records of fragment, start offset and end offset, one for each
    capture. *)
Definition dumpSpec (source : string) (caps : list QueryCapture) : string :=
  Legacy.JSON_stringify_DumpResults
    (map (fun capture => Legacy.DumpResult_new (node capture) source) caps).

(** The match constraint bound to the [@exp] capture. *)
Definition matchConstraint (regEx : string) : string :=
  "(#match? @exp " +:+ dquote +:+ regEx +:+ dquote +:+ ")".

(** The composed query as the specification words it: the base query, with
    the constraint appended when [RegEx] is present. *)
Definition composedQuerySpec (f : RuleFields) : string :=
  match RegEx f with
  | Some regEx => Query f +:+ matchConstraint regEx
  | None => Query f
  end.

(** ** A small host and rule set, for concrete runs *)

Module Fixture.

Definition source : string := "class A { int x; int longName; }".

Definition program : SyntaxNode :=
  {| type := "program"; startIndex := 0; endIndex := 32; text := source |}.

Definition classA : SyntaxNode :=
  {| type := "class_declaration"; startIndex := 0; endIndex := 32; text := source |}.

Definition idX : SyntaxNode :=
  {| type := "identifier"; startIndex := 14; endIndex := 15; text := "x" |}.

Definition idLongName : SyntaxNode :=
  {| type := "identifier"; startIndex := 21; endIndex := 29; text := "longName" |}.

Definition tree : Tree := {| rootNode := program |}.

Definition declQuery : string := "(class_declaration @decl)".
Definition classQuery : string := "(class_declaration) @decl".
Definition varQuery : string := "(variable_declarator (identifier) @exp)".
Definition longQuery : string :=
  varQuery +:+ "(#match? @exp " +:+ dquote +:+ "^long" +:+ dquote +:+ ")".

(** A grammar is a table from pattern text to the captures of the pattern in
    [source]; any other pattern is a syntax error, among them [declQuery],
    whose capture stands where a child pattern is expected. Executing a query
    over a scope keeps the captures that lie inside the scope. *)
Definition inside (scope n : SyntaxNode) : bool :=
  Nat.leb (startIndex scope) (startIndex n) && Nat.leb (endIndex n) (endIndex scope).

Fixpoint lookupPattern (table : list (string * list QueryCapture)) (queryText : string)
    : option (list QueryCapture) :=
  match table with
  | [] => None
  | (p, caps) :: rest => if String.eqb p queryText then Some caps else lookupPattern rest queryText
  end.

Definition compile (table : list (string * list QueryCapture)) (queryText : string)
    : result TreeSitter.Query :=
  match lookupPattern table queryText with
  | Some caps =>
      Ok {| captures := fun scope => Ok (filter (fun c => inside scope (node c)) caps);
            matches := fun scope =>
              Ok (map (fun c => {| pattern := 0; captures_of := [c] |})
                      (filter (fun c => inside scope (node c)) caps)) |}
  | None => Throw "TSQueryErrorSyntax"
  end.

Definition host : Host :=
  {| Language := list (string * list QueryCapture);
     ScanResult := string;
     Store := nat;
     Query_new := compile;
     VIOLATION := 3%Z |}.

#[local] Existing Instance host.

Definition grammar : Language :=
  [ (classQuery, [ {| name := "decl"; node := classA |} ]);
    (varQuery, [ {| name := "exp"; node := idX |}; {| name := "exp"; node := idLongName |} ]);
    (longQuery, [ {| name := "exp"; node := idLongName |} ]) ].


(** The store counts the nodes measured so far. *)
Definition countNodes : Callback (list SyntaxNode) unit :=
  fun _ nodes s => (s + length nodes, Ok tt).

Definition noBulkFindings : Callback (list SyntaxNode) (list ScanResult) :=
  fun _ _ s => (s, Ok []).

Definition flagShortName : Callback SyntaxNode (list ScanResult) :=
  fun self n s =>
    (s, Ok (if Nat.leb (String.length (text n)) 3
            then [Name self +:+ ": " +:+ text n]
            else [])).

Definition mkRule (f : RuleFields) : ScanRule :=
  {| fields := f; preFilter := defaultPreFilter; measureNodes := countNodes;
     validateNodes := noBulkFindings; validateNode := flagShortName |}.

Definition shortNames : ScanRule :=
  mkRule {| Name := "Length < 3"; Category := "Variables"; Context := Some "scan";
            Query := varQuery; RegEx := None; Priority := 2%Z |}.

Definition totalVariables : ScanRule :=
  mkRule {| Name := "Total"; Category := "Variables"; Context := Some "measure";
            Query := varQuery; RegEx := None; Priority := 16452%Z |}.

Definition longOnes : ScanRule :=
  mkRule {| Name := "Trivial RegEx"; Category := "Variables"; Context := None;
            Query := varQuery; RegEx := Some "^long"; Priority := 1%Z |}.

Definition emptyRegEx : ScanRule :=
  mkRule {| Name := "Empty RegEx"; Category := "Variables"; Context := None;
            Query := varQuery; RegEx := Some EmptyString; Priority := 1%Z |}.

Definition malformed : ScanRule :=
  mkRule {| Name := "Malformed"; Category := "Variables"; Context := Some "scan,measure";
            Query := "((identifier"; RegEx := None; Priority := 3%Z |}.

(** A rule whose per-node validator throws on the second variable. *)
Definition fragile : ScanRule :=
  {| fields := {| Name := "Fragile"; Category := "Variables"; Context := None;
                  Query := varQuery; RegEx := None; Priority := 0%Z |};
     preFilter := defaultPreFilter;
     measureNodes := countNodes;
     validateNodes := fun _ nodes s => (s, Ok ["bulk"]);
     validateNode := fun _ n s =>
       if String.eqb (text n) "x" then (s, Ok ["x seen"]) else (s, Throw "TypeError") |}.

(** A rule with pure validators whose pre-filter works once: it returns the
    root on its first call, notes the call in the store, and throws on every
    later call. *)
Definition filtersOnce : ScanRule :=
  {| fields := {| Name := "PF"; Category := "Variables"; Context := Some "scan";
                  Query := varQuery; RegEx := None; Priority := 1%Z |};
     preFilter := fun _ root s =>
       match s with
       | 0 => (1, Ok root)
       | _ => (s, Throw "Error: pre-filter used")
       end;
     measureNodes := countNodes;
     validateNodes := noBulkFindings;
     validateNode := flagShortName |}.

(** A rule with pure validators whose measurement callback throws once
    something was measured. *)
Definition measuresOnce : ScanRule :=
  {| fields := {| Name := "Total"; Category := "Variables"; Context := Some "measure";
                  Query := varQuery; RegEx := None; Priority := 1%Z |};
     preFilter := defaultPreFilter;
     measureNodes := fun _ nodes s =>
       match s with
       | 0 => (length nodes, Ok tt)
       | _ => (s, Throw "Error: measured twice")
       end;
     validateNodes := noBulkFindings;
     validateNode := flagShortName |}.

Definition manager (rules : list ScanRule) : ScanManager :=
  {| treeSitterNodeTree := tree; treeSitterLanguage := grammar;
     scannerRules := rules; sourceCodeToScan := source |}.

Definition initial (rules : list ScanRule) : State :=
  {| this := manager rules; store := 0; console := []; trace := [] |}.

Definition sampleRules : list ScanRule :=
  [shortNames; totalVariables; longOnes; emptyRegEx; malformed; fragile].

Definition xCapture : QueryCapture := {| name := "exp"; node := idX |}.
Definition longNameCapture : QueryCapture := {| name := "exp"; node := idLongName |}.

End Fixture.

(** ** Further definitions for the properties of the whole files *)

Section MoreDefinitions.
Context `{Host}.

(** The state with another rule array. *)
Definition withScannerRules (st : State) (rs : list ScanRule) : State :=
  {| this := setRules (this st) rs; store := store st;
     console := console st; trace := trace st |}.

(** The call of [validateNode] on node [n] by rule [i]. *)
Definition validateNodeCall (i : nat) (self : RuleFields) (n : SyntaxNode) : Event :=
  EvCall M_validateNode i self [n].

Definition isValidatorCall (e : Event) : bool :=
  match e with
  | EvCall M_validateNodes _ _ _ | EvCall M_validateNode _ _ _ => true
  | _ => false
  end.

Definition isValidateNodeCall (e : Event) : bool :=
  match e with
  | EvCall M_validateNode _ _ _ => true
  | _ => false
  end.

(** The text every console line of [commonScan] starts with. *)
Definition errorPrefix : string := "A tree-sitter query error occurred: ".

End MoreDefinitions.

(** ** ScanManager.js: [_scan], [scan] and [measure] *)

Module LegacyScan.
Section Model.
Context `{Host}.
Local Open Scope js_scope.

(** [throw e] *)
Definition throw {S A : Type} (e : Exn) : M S A := fun s => (s, Throw e).

(** A rule as [_scan] uses it: the data fields and the method [validate],
    whose result is used as a condition. *)
Record Rule : Type := {
  rfields : RuleFields;
  validate : Callback SyntaxNode bool
}.

(** What [_scan] uses and the file does not define: the class imported from
    [./Violation], whose constructor may read and write the store and throw,
    and the text of the [TypeError] the JavaScript engine throws for a
    failed operation. *)
Class ViolationHost : Type := {
  Violation : Type;
  Violation_new : SyntaxNode -> Rule -> string -> Store -> Store * result Violation;
  TypeError : string -> Exn
}.
Context `{ViolationHost}.

(** The fields of the instance; [None] for [_rules] is [null]. *)
Record Manager : Type := {
  _sourcePath : string;
  _sourceCode : string;
  _rules : option (list Rule);
  _language : Language;
  _nodeTree : Tree
}.

(** Ghost log: what the iteration for the rule at index [i] calls. *)
Inductive LEvent : Type :=
| LQueryNew (i : nat) (queryText : string)
| LMatches (i : nat) (queryText : string) (scope : SyntaxNode)
| LValidate (i : nat) (self : RuleFields) (n : SyntaxNode)
| LViolationNew (i : nat) (n : SyntaxNode).

Definition eventIndex (e : LEvent) : nat :=
  match e with
  | LQueryNew i _ | LMatches i _ _ | LValidate i _ _ | LViolationNew i _ => i
  end.

Record LState : Type := {
  lthis : Manager;
  lstore : Store;
  lconsole : list string;
  ltrace : list LEvent
}.

(** A JavaScript [Map] object: its entries, in insertion order, and its own
    properties whose value is an array. The two are apart: [set] makes an
    entry and no property. What a [Map] inherits ([size], [get], [set], ...)
    is no array. *)
Record JSMap : Type := {
  entries : list (string * list Violation);
  properties : list (string * list Violation)
}.

(** [new Map()] *)
Definition Map_new : JSMap := {| entries := []; properties := [] |}.

(** [map.has(key)] *)
Definition Map_has (m : JSMap) (key : string) : bool :=
  existsb (fun kv => String.eqb (fst kv) key) (entries m).

Fixpoint setEntry (key : string) (value : list Violation)
    (kvs : list (string * list Violation)) : list (string * list Violation) :=
  match kvs with
  | [] => [(key, value)]
  | (k, v) :: rest =>
      if String.eqb k key then (k, value) :: rest else (k, v) :: setEntry key value rest
  end.

(** [map.set(key, value)] *)
Definition Map_set (m : JSMap) (key : string) (value : list Violation) : JSMap :=
  {| entries := setEntry key value (entries m); properties := properties m |}.

Fixpoint lookupProperty (key : string) (props : list (string * list Violation))
    : option (list Violation) :=
  match props with
  | [] => None
  | (k, v) :: rest => if String.eqb k key then Some v else lookupProperty key rest
  end.

(** The state inside [_scan]: the heap and the local [resultMap]. *)
Record LFrame : Type := {
  lheap : LState;
  resultMap : JSMap
}.

Definition onLHeap {A : Type} (m : M LState A) : M LFrame A :=
  zoom lheap (fun h fr => {| lheap := h; resultMap := resultMap fr |}) m.

Definition logged (e : LEvent) (st : LState) : LState :=
  {| lthis := lthis st; lstore := lstore st; lconsole := lconsole st;
     ltrace := ltrace st ++ [e] |}.

(** [new TreeSitter.Query(this._language, queryText)] *)
Definition lnewQuery (i : nat) (queryText : string) : M LState TreeSitter.Query :=
  fun st => (logged (LQueryNew i queryText) st, Query_new (_language (lthis st)) queryText).

(** [query.matches(scope)] *)
Definition lrunMatches (i : nat) (queryText : string) (q : TreeSitter.Query)
    (scope : SyntaxNode) : M LState (list QueryMatch) :=
  fun st => (logged (LMatches i queryText scope) st, matches q scope).

(** [rule.validate(n)] *)
Definition lvalidate (i : nat) (rule : Rule) (n : SyntaxNode) : M LState bool :=
  fun st =>
    let (s', r) := validate rule (rfields rule) n (lstore st) in
    ({| lthis := lthis st; lstore := s'; lconsole := lconsole st;
        ltrace := ltrace st ++ [LValidate i (rfields rule) n] |}, r).

(** [new Violation(n, rule, this._sourcePath)] *)
Definition lnewViolation (i : nat) (rule : Rule) (n : SyntaxNode) : M LState Violation :=
  fun st =>
    let (s', r) := Violation_new n rule (_sourcePath (lthis st)) (lstore st) in
    ({| lthis := lthis st; lstore := s'; lconsole := lconsole st;
        ltrace := ltrace st ++ [LViolationNew i n] |}, r).

(** [console.error(msg)] *)
Definition lconsole_error (msg : string) : M LState unit :=
  modify (fun st => {| lthis := lthis st; lstore := lstore st;
                       lconsole := lconsole st ++ [msg]; ltrace := ltrace st |}).

(** Lines 56-58: [if (!resultMap.has(c)) resultMap.set(c, [])] *)
Definition ensureCategory (category : string) : M LFrame unit :=
  modify (fun fr =>
    if Map_has (resultMap fr) category then fr
    else {| lheap := lheap fr; resultMap := Map_set (resultMap fr) category [] |}).

(** Line 81: [resultMap[key].push(v)]. The index reads a property of the
    object, not an entry of the map: when the object has an own property
    [key] holding an array, the value is appended to it; otherwise what is
    read is [undefined] or an inherited member without [push], and the call
    throws a [TypeError]. *)
Definition pushOnProperty (key : string) (v : Violation) : M LFrame unit :=
  fun fr =>
    match lookupProperty key (properties (resultMap fr)) with
    | Some arr =>
        ({| lheap := lheap fr;
            resultMap := {| entries := entries (resultMap fr);
                            properties := setEntry key (arr ++ [v])
                                            (properties (resultMap fr)) |} |},
         Ok tt)
    | None => (fr, Throw (TypeError ("resultMap[" +:+ key +:+ "].push")))
    end.

(** Lines 76-83: the function applied to each capture. *)
Definition checkCapture (i : nat) (rule : Rule) (ruleContext : string)
    (capture : QueryCapture) : M LFrame unit :=
  let* isValid := onLHeap (lvalidate i rule (node capture)) in
  if negb isValid
  then
    let* newViolation := onLHeap (lnewViolation i rule (node capture)) in
    pushOnProperty ruleContext newViolation
  else ret tt.

(** Lines 73-84: the body of the [try] block. *)
Definition tryBody (i : nat) (rule : Rule) (ruleContext queryText : string) : M LFrame unit :=
  let* query := onLHeap (lnewQuery i queryText) in
  let* root := (fun fr => (fr, Ok (rootNode (_nodeTree (lthis (lheap fr)))))) in
  let* found := onLHeap (lrunMatches i queryText query root) in
  forEach found (fun m => forEach (captures_of m) (checkCapture i rule ruleContext)).

(** Lines 86-88: the [catch] clause. *)
Definition catchClause (treeSitterError : Exn) : M LFrame unit :=
  onLHeap (lconsole_error ("A tree-sitter query error occurred: " +:+ treeSitterError)).

(** Lines 56-88: one iteration of the loop. Reading [includes] of a missing
    [Context] throws, outside the [try] block. *)
Definition scanRule (context : string) (i : nat) (rule : Rule) : M LFrame unit :=
  ensureCategory (Category (rfields rule)) >>
  match Context (rfields rule) with
  | None => throw (TypeError "rule.Context.includes")
  | Some ruleContext =>
      if negb (includes ruleContext context) then ret tt
      else
        let queryText := Legacy.composeQuery (rfields rule) in
        try_catch (tryBody i rule ruleContext queryText) catchClause
  end.

(** Line 55: [for (let rule of this._rules)], from index [i]. *)
Fixpoint forRules (context : string) (i : nat) (rules : list Rule) : M LFrame unit :=
  match rules with
  | [] => ret tt
  | rule :: rest => scanRule context i rule >> forRules context (S i) rest
  end.

(** Lines 50-91. The test of lines 52-53 has an empty body; iterating over
    [null] throws. *)
Definition _scan (context : string) : M LState JSMap :=
  fun st =>
    match _rules (lthis st) with
    | None => (st, Throw (TypeError "this._rules is not iterable"))
    | Some rules =>
        match forRules context 0 rules {| lheap := st; resultMap := Map_new |} with
        | (fr, Ok _) => (lheap fr, Ok (resultMap fr))
        | (fr, Throw e) => (lheap fr, Throw e)
        end
    end.

(** Lines 39-41 *)
Definition scan : M LState JSMap := _scan "scan".

(** Lines 92-94: the two arguments are not used. *)
Definition measure {P L : Type} (parser : P) (language : L) : M LState JSMap :=
  _scan "measure".

(** The categories a map has a key for. *)
Definition keys (m : JSMap) : list string := map fst (entries m).

(** The store after [validate] returned true for every one of the nodes, in
    order; [None] when some call returns false or throws. *)
Fixpoint validAll (rule : Rule) (nodes : list SyntaxNode) (s : Store) : option Store :=
  match nodes with
  | [] => Some s
  | n :: ns =>
      match validate rule (rfields rule) n s with
      | (s1, Ok true) => validAll rule ns s1
      | _ => None
      end
  end.

(** The frame after some calls: the store replaced, the console and the log
    extended. *)
Definition lextend (fr : LFrame) (s : Store) (msgs : list string) (evs : list LEvent)
    : LFrame :=
  {| lheap := {| lthis := lthis (lheap fr); lstore := s;
                 lconsole := lconsole (lheap fr) ++ msgs;
                 ltrace := ltrace (lheap fr) ++ evs |};
     resultMap := resultMap fr |}.

(** The map after lines 56-58 for a category. *)
Definition ensured (category : string) (m : JSMap) : JSMap :=
  if Map_has m category then m else Map_set m category [].

(** The invariant of the map: no own property, no violation under any
    category, no category twice. *)
Definition emptyMap (m : JSMap) : Prop :=
  properties m = [] /\ Forall (fun kv => snd kv = []) (entries m) /\ NoDup (keys m).

(** A relation between the frame before and the frame after a step. *)
Definition steps {A : Type} (R : LFrame -> LFrame -> Prop) (m : M LFrame A) : Prop :=
  forall fr, R fr (fst (m fr)).

(** The map is left alone, as long as the object has no own property. *)
Definition keepsMap (fr fr' : LFrame) : Prop :=
  properties (resultMap fr) = [] -> resultMap fr' = resultMap fr.

(** The log grows by events that satisfy [P]. *)
Definition logsOnly (P : LEvent -> Prop) (fr fr' : LFrame) : Prop :=
  exists evs, ltrace (lheap fr') = ltrace (lheap fr) ++ evs /\ Forall P evs.

(** The rule at the index of the event names the requested context. *)
Definition inContext (context : string) (rules : list Rule) (e : LEvent) : Prop :=
  exists rule ruleContext,
    rules !! eventIndex e = Some rule /\
    Context (rfields rule) = Some ruleContext /\
    includes ruleContext context = true.

End Model.
End LegacyScan.

(** ** A second sample: three declarations, and rules that throw *)

Module Fixture3.
Import Fixture.
#[local] Existing Instance Fixture.host.

Definition source3 : string := "int longName; int x; int y;".

Definition program3 : SyntaxNode :=
  {| type := "program"; startIndex := 0; endIndex := 27; text := source3 |}.

Definition nLongName : SyntaxNode :=
  {| type := "identifier"; startIndex := 4; endIndex := 12; text := "longName" |}.

Definition nX : SyntaxNode :=
  {| type := "identifier"; startIndex := 18; endIndex := 19; text := "x" |}.

Definition nY : SyntaxNode :=
  {| type := "identifier"; startIndex := 25; endIndex := 26; text := "y" |}.

Definition cLongName : QueryCapture := {| name := "exp"; node := nLongName |}.
Definition cX : QueryCapture := {| name := "exp"; node := nX |}.
Definition cY : QueryCapture := {| name := "exp"; node := nY |}.

Definition tree3 : Tree := {| rootNode := program3 |}.

(** No class is declared in [source3]. *)
Definition grammar3 : Language :=
  [ (varQuery, [cLongName; cX; cY]); (classQuery, []) ].

(** [validateNode] throws on [x], after it returned for [longName]. *)
Definition throwsOnX : ScanRule :=
  {| fields := {| Name := "Throws on x"; Category := "Variables"; Context := None;
                  Query := varQuery; RegEx := None; Priority := 1%Z |};
     preFilter := defaultPreFilter;
     measureNodes := countNodes;
     validateNodes := fun _ _ s => (s, Ok ["bulk"]);
     validateNode := fun _ n s =>
       if String.eqb (text n) "x" then (s, Throw "TypeError: x")
       else (s, Ok ["seen " +:+ text n]) |}.

(** [measureNodes] throws. *)
Definition measureThrows : ScanRule :=
  {| fields := {| Name := "Measure throws"; Category := "Variables";
                  Context := Some "scan,measure";
                  Query := varQuery; RegEx := None; Priority := 1%Z |};
     preFilter := defaultPreFilter;
     measureNodes := fun _ _ s => (s, Throw "RangeError");
     validateNodes := fun _ _ s => (s, Ok ["bulk"]);
     validateNode := flagShortName |}.

(** A rule on class declarations whose bulk validator reports their absence. *)
Definition needsClass : ScanRule :=
  {| fields := {| Name := "Needs a class"; Category := "Classes"; Context := None;
                  Query := classQuery; RegEx := None; Priority := (-5)%Z |};
     preFilter := defaultPreFilter;
     measureNodes := countNodes;
     validateNodes := fun self nodes s =>
       (s, Ok (match nodes with [] => [Name self +:+ ": none"] | _ => [] end));
     validateNode := flagShortName |}.

Definition manager3 (rules : list ScanRule) : ScanManager :=
  {| treeSitterNodeTree := tree3; treeSitterLanguage := grammar3;
     scannerRules := rules; sourceCodeToScan := source3 |}.

Definition initial3 (rules : list ScanRule) : State :=
  {| this := manager3 rules; store := 0; console := []; trace := [] |}.

Definition frame3 (rules : list ScanRule) : Frame :=
  {| heap := initial3 rules; scanResultList := ["earlier"] |}.

(** *** The older engine on the same source *)

Definition violations : LegacyScan.ViolationHost :=
  {| LegacyScan.Violation := (string * SyntaxNode)%type;
     LegacyScan.Violation_new := fun n rule _ s =>
       (s, Ok (Name (LegacyScan.rfields rule), n));
     LegacyScan.TypeError := fun what => "TypeError: " +:+ what |}.

#[local] Existing Instance violations.

(** The rule [Length < 3] of the registry in the file: [node.text.length > 3]. *)
Definition longerThan3 : LegacyScan.Rule :=
  {| LegacyScan.rfields :=
       {| Name := "Length < 3"; Category := "Variables"; Context := Some "scan,measure";
          Query := varQuery; RegEx := None; Priority := 1%Z |};
     LegacyScan.validate := fun _ n s => (s, Ok (Nat.ltb 3 (String.length (text n)))) |}.

Definition totals : LegacyScan.Rule :=
  {| LegacyScan.rfields :=
       {| Name := "Total"; Category := "Totals"; Context := Some "measure";
          Query := varQuery; RegEx := None; Priority := 1%Z |};
     LegacyScan.validate := fun _ _ s => (s, Ok true) |}.

Definition withoutContext : LegacyScan.Rule :=
  {| LegacyScan.rfields :=
       {| Name := "No context"; Category := "Variables"; Context := None;
          Query := varQuery; RegEx := None; Priority := 1%Z |};
     LegacyScan.validate := fun _ _ s => (s, Ok true) |}.

Definition legacyState (rules : option (list LegacyScan.Rule)) : LegacyScan.LState :=
  {| LegacyScan.lthis :=
       {| LegacyScan._sourcePath := "Sample.cls"; LegacyScan._sourceCode := source3;
          LegacyScan._rules := rules; LegacyScan._language := grammar3;
          LegacyScan._nodeTree := tree3 |};
     LegacyScan.lstore := 0; LegacyScan.lconsole := []; LegacyScan.ltrace := [] |}.

Definition legacyFrame (rules : option (list LegacyScan.Rule)) : LegacyScan.LFrame :=
  {| LegacyScan.lheap := legacyState rules; LegacyScan.resultMap := LegacyScan.Map_new |}.

End Fixture3.

(** * Properties *)

Section Proofs.
Context `{Host}.

(** ** Running the primitives *)

Lemma extend_id (fr : Frame) : extend fr (store (heap fr)) [] [] [] = fr.
Proof.
  destruct fr as [[m s c t] l]. unfold extend. simpl. by rewrite !app_nil_r.
Qed.

Lemma extend_extend (fr : Frame) s1 m1 e1 f1 s2 m2 e2 f2 :
  extend (extend fr s1 m1 e1 f1) s2 m2 e2 f2 = extend fr s2 (m1 ++ m2) (e1 ++ e2) (f1 ++ f2).
Proof. unfold extend. simpl. by rewrite !app_assoc. Qed.

Lemma invoke_run {A B : Type} m i self args (cb : Callback A B) (a : A) (fr : Frame) :
  onHeap (invoke m i self args cb a) fr =
  (extend fr (fst (cb self a (store (heap fr)))) [] [EvCall m i self args] [],
   snd (cb self a (store (heap fr)))).
Proof.
  unfold onHeap, zoom, invoke, extend. destruct (cb self a (store (heap fr))). simpl.
  by rewrite !app_nil_r.
Qed.

Lemma newQuery_run queryText (fr : Frame) :
  onHeap (newQuery queryText) fr =
  (extend fr (store (heap fr)) [] [EvQueryNew queryText] [],
   Query_new (treeSitterLanguage (this (heap fr))) queryText).
Proof. unfold onHeap, zoom, newQuery, extend. simpl. by rewrite !app_nil_r. Qed.

Lemma runCaptures_run queryText q scope (fr : Frame) :
  onHeap (runCaptures queryText q scope) fr =
  (extend fr (store (heap fr)) [] [EvCaptures queryText scope] [], captures q scope).
Proof. unfold onHeap, zoom, runCaptures, extend. simpl. by rewrite !app_nil_r. Qed.

Lemma push_run found (fr : Frame) :
  push found fr = (extend fr (store (heap fr)) [] [] found, Ok tt).
Proof.
  destruct fr as [[m s c t] l]. unfold push, modify, extend. simpl. by rewrite !app_nil_r.
Qed.

Lemma catchClause_run e (fr : Frame) :
  catchClause e fr =
  (extend fr (store (heap fr)) ["A tree-sitter query error occurred: " +:+ e] [] [], Ok tt).
Proof.
  unfold catchClause, onHeap, zoom, console_write, modify, extend. simpl.
  by rewrite !app_nil_r.
Qed.

(** ** The per-node loop *)

Lemma forEach_validateNode_run (i : nat) (rule : ScanRule) (nodes : list SyntaxNode) :
  forall fr : Frame,
    forEach nodes (fun n =>
      bind (onHeap (invoke M_validateNode i (fields rule) [n] (validateNode rule) n))
           (fun found => push found)) fr =
    (extend fr (fst (perNodeFindings rule nodes (store (heap fr)))) []
       (perNodeEvents i rule nodes (store (heap fr)))
       (snd (perNodeFindings rule nodes (store (heap fr)))),
     match perNodeError rule nodes (store (heap fr)) with
     | Some e => Throw e
     | None => Ok tt
     end).
Proof.
  induction nodes as [|n ns IH]; intros fr.
  - simpl. unfold ret. by rewrite extend_id.
  - cbn [forEach perNodeFindings perNodeEvents perNodeError].
    unfold bind at 1. unfold bind at 1. rewrite invoke_run.
    destruct (validateNode rule (fields rule) n (store (heap fr))) as [s1 [found|e]] eqn:E;
      cbn [fst snd].
    + rewrite push_run, IH, !extend_extend. cbn [heap store extend].
      destruct (perNodeFindings rule ns s1) as [s2 rest]. reflexivity.
    + reflexivity.
Qed.

(** ** One rule *)

Lemma bind_eq {S A B : Type} (m : M S A) (k : A -> M S B) (s : S) :
  bind m k s =
  match m s with
  | (s', Ok a) => k a s'
  | (s', Throw e) => (s', Throw e)
  end.
Proof. reflexivity. Qed.

Lemma store_extend (fr : Frame) s msgs evs found :
  store (heap (extend fr s msgs evs found)) = s.
Proof. reflexivity. Qed.

Lemma this_extend (fr : Frame) s msgs evs found :
  this (heap (extend fr s msgs evs found)) = this (heap fr).
Proof. reflexivity. Qed.

Lemma measure_run (i : nat) (rule : ScanRule) (nodes : list SyntaxNode) (fr : Frame) :
  (if includes (ruleContext (fields rule)) "measure"
   then onHeap (invoke M_measureNodes i (fields rule) nodes (measureNodes rule) nodes)
   else ret tt) fr =
  (extend fr (fst (measureStep rule nodes (store (heap fr)))) []
     (measureEvents i rule nodes) [],
   snd (measureStep rule nodes (store (heap fr)))).
Proof.
  unfold measureStep, measureEvents.
  destruct (includes (ruleContext (fields rule)) "measure").
  - by rewrite invoke_run.
  - unfold ret. cbn [fst snd]. by rewrite extend_id.
Qed.

Lemma tryBody_run (i : nat) (rule : ScanRule) (fr : Frame) :
  let lang := treeSitterLanguage (this (heap fr)) in
  let root := rootNode (treeSitterNodeTree (this (heap fr))) in
  let s := store (heap fr) in
  tryBody i rule (composeQuery (fields rule)) fr =
  (extend fr (fst (ruleFindings lang root rule s)) []
     (ruleEvents i lang root rule s) (snd (ruleFindings lang root rule s)),
   match ruleError lang root rule s with
   | Some e => Throw e
   | None => Ok tt
   end).
Proof.
  intros lang root s.
  unfold tryBody, ruleFindings, ruleEvents, ruleError, capturedNodes.
  rewrite bind_eq. cbv beta iota. rewrite bind_eq, invoke_run. fold root s.
  destruct (preFilter rule (fields rule) root s) as [s1 [scope|e]]; cbn [fst snd];
    [| reflexivity].
  rewrite bind_eq, newQuery_run, this_extend, store_extend. fold lang.
  destruct (Query_new lang (composeQuery (fields rule))) as [q|e];
    [| rewrite extend_extend; reflexivity].
  rewrite bind_eq, runCaptures_run, store_extend.
  destruct (captures q scope) as [caps|e]; [| rewrite !extend_extend; reflexivity].
  rewrite bind_eq, measure_run, store_extend. unfold dispatchEvents.
  destruct (measureStep rule (map node caps) s1) as [s2 [[]|e]]; cbn [fst snd];
    [| rewrite !extend_extend, !app_nil_r; reflexivity].
  rewrite bind_eq, invoke_run, store_extend.
  destruct (validateNodes rule (fields rule) (map node caps) s2) as [s3 [found|e]];
    cbn [fst snd]; [| rewrite !extend_extend, !app_nil_r; reflexivity].
  rewrite bind_eq, push_run, forEach_validateNode_run, !store_extend, !extend_extend.
  destruct (perNodeFindings rule (map node caps) s3) as [s4 perNode]. reflexivity.
Qed.

Lemma writePriority_run (i : nat) (p : Z) (r : ScanRule) (fr : Frame) :
  scannerRules (this (heap fr)) !! i = Some r ->
  onHeap (writePriority i p) fr =
  (withRules fr (<[i := setFields r (setPriority (fields r) p)]> (scannerRules (this (heap fr)))),
   Ok tt).
Proof.
  intros Hi. unfold onHeap, zoom, writePriority, modify, withRules. by rewrite Hi.
Qed.

(** One iteration of the loop, in closed form. *)
Lemma evalRule_run (i : nat) (r : ScanRule) (fr : Frame) :
  scannerRules (this (heap fr)) !! i = Some r ->
  let lang := treeSitterLanguage (this (heap fr)) in
  let root := rootNode (treeSitterNodeTree (this (heap fr))) in
  let s := store (heap fr) in
  let r' := normalizeRule r in
  evalRule i fr =
  (extend (withRules fr (<[i := r']> (scannerRules (this (heap fr)))))
     (fst (ruleFindings lang root r' s))
     (ruleConsole lang root r' s)
     (ruleEvents i lang root r' s)
     (snd (ruleFindings lang root r' s)),
   Ok tt).
Proof.
  intros Hi lang root s r'. unfold evalRule. rewrite Hi, bind_eq.
  rewrite (writePriority_run _ _ r) by done. fold (normalizeRule r). fold r'.
  unfold try_catch. rewrite tryBody_run. cbn [withRules heap this store setRules
    treeSitterLanguage treeSitterNodeTree]. fold lang root s. unfold ruleConsole.
  destruct (ruleError lang root r' s) as [e|]; [| by rewrite !app_nil_r || reflexivity].
  rewrite catchClause_run, extend_extend, store_extend. by rewrite !app_nil_r.
Qed.

(** ** The loop and the whole run *)

Lemma withRules_id (fr : Frame) : withRules fr (scannerRules (this (heap fr))) = fr.
Proof. by destruct fr as [[[t l rs src] s c tr] acc]. Qed.

Lemma forOf_run (n : nat) :
  forall (i : nat) (fr : Frame),
    i + n = length (scannerRules (this (heap fr))) ->
    let lang := treeSitterLanguage (this (heap fr)) in
    let root := rootNode (treeSitterNodeTree (this (heap fr))) in
    let s := store (heap fr) in
    let rules := scannerRules (this (heap fr)) in
    forOf i n fr =
    (extend (withRules fr (take i rules ++ map normalizeRule (drop i rules)))
       (fst (specFindings lang root (drop i rules) s))
       (specConsole lang root (drop i rules) s)
       (specEvents i lang root (drop i rules) s)
       (snd (specFindings lang root (drop i rules) s)),
     Ok tt).
Proof.
  induction n as [|n IH]; intros i fr Hlen lang root s rules.
  - rewrite drop_ge, take_ge by (subst rules; lia). cbn. unfold ret.
    rewrite app_nil_r. subst rules. by rewrite withRules_id, extend_id.
  - destruct (lookup_lt_is_Some_2 rules i) as [r Hr]; [subst rules; lia|].
    cbn [forOf]. rewrite bind_eq, (evalRule_run i r) by done.
    fold lang root s rules. set (r' := normalizeRule r).
    rewrite IH by (cbn; rewrite length_insert; unfold rules; lia).
    cbn [extend withRules heap this store setRules scannerRules treeSitterLanguage
         treeSitterNodeTree]. fold lang root.
    rewrite drop_insert_lt by lia.
    rewrite (take_S_r _ _ r') by (apply list_lookup_insert_eq; subst rules; lia).
    rewrite take_insert_ge by lia.
    rewrite (drop_S rules r i) by done.
    cbn [specFindings specConsole specEvents map]. fold r'.
    unfold extend, withRules, setRules.
    cbn [heap this store console trace scanResultList scannerRules treeSitterLanguage
         treeSitterNodeTree sourceCodeToScan].
    rewrite <- !app_assoc.
    destruct (ruleFindings lang root r' s) as [s1 found]. cbn [fst snd].
    destruct (specFindings lang root (drop (S i) rules) s1) as [s2 rest]. reflexivity.
Qed.

Lemma commonScan_run (st : State) :
  let lang := treeSitterLanguage (this st) in
  let root := rootNode (treeSitterNodeTree (this st)) in
  let rules := scannerRules (this st) in
  commonScan st =
  ({| this := setRules (this st) (map normalizeRule rules);
      store := fst (specFindings lang root rules (store st));
      console := console st ++ specConsole lang root rules (store st);
      trace := trace st ++ specEvents 0 lang root rules (store st) |},
   Ok (snd (specFindings lang root rules (store st)))).
Proof.
  intros lang root rules. unfold commonScan. rewrite forOf_run by reflexivity.
  reflexivity.
Qed.

Lemma scan_eq (st : State) : scan st = commonScan st.
Proof. unfold scan. rewrite bind_eq. by destruct (commonScan st) as [st' [found|e]]. Qed.

Lemma callsDuring_scan (st : State) : callsDuring scan st = callsDuring commonScan st.
Proof. unfold callsDuring. by rewrite scan_eq. Qed.

Lemma callsDuring_commonScan (st : State) :
  callsDuring commonScan st =
  specEvents 0 (treeSitterLanguage (this st)) (rootNode (treeSitterNodeTree (this st)))
    (scannerRules (this st)) (store st).
Proof.
  unfold callsDuring. rewrite commonScan_run. cbn [fst trace].
  by rewrite drop_app_length.
Qed.

(** ** Normalising the priority *)

Lemma normalizePriority_min (p : Z) : normalizePriority p = Z.min p VIOLATION.
Proof. unfold normalizePriority. destruct (Z.gtb_spec p VIOLATION); lia. Qed.

Lemma normalizePriority_idem (p : Z) :
  normalizePriority (normalizePriority p) = normalizePriority p.
Proof. rewrite !normalizePriority_min. lia. Qed.

Lemma normalizePriority_le (p : Z) : (p <= VIOLATION)%Z -> normalizePriority p = p.
Proof. rewrite normalizePriority_min. lia. Qed.

Lemma normalizeRule_idem (r : ScanRule) : normalizeRule (normalizeRule r) = normalizeRule r.
Proof.
  unfold normalizeRule, setFields, setPriority. cbn. by rewrite normalizePriority_idem.
Qed.

Lemma normalizeRule_le (r : ScanRule) :
  (Priority (fields r) <= VIOLATION)%Z -> normalizeRule r = r.
Proof.
  intros Hle. destruct r as [[n c ctx q re p] pf mn vns vn].
  unfold normalizeRule, setFields, setPriority. cbn in *.
  by rewrite normalizePriority_le.
Qed.

Lemma composeQuery_setPriority (f : RuleFields) (p : Z) :
  composeQuery (setPriority f p) = composeQuery f.
Proof. reflexivity. Qed.

Lemma specFindings_normalized lang root (rules : list ScanRule) :
  forall s, specFindings lang root (map normalizeRule rules) s = specFindings lang root rules s.
Proof.
  induction rules as [|r rs IH]; intros s; [reflexivity|].
  cbn [map specFindings]. rewrite normalizeRule_idem.
  destruct (ruleFindings lang root (normalizeRule r) s) as [s1 found]. by rewrite IH.
Qed.

(** ** The calls of a run *)

Lemma perNodeEvents_calls (i : nat) (r : ScanRule) (nodes : list SyntaxNode) :
  forall s, Forall (fun e => callOf i (fields r) e /\ isMeasureCall e = false)
                   (perNodeEvents i r nodes s).
Proof.
  induction nodes as [|n ns IH]; intros s; cbn [perNodeEvents]; [constructor|].
  constructor; [by cbn|].
  destruct (validateNode r (fields r) n s) as [s1 [found|e]]; [apply IH | constructor].
Qed.

Lemma dispatchEvents_calls (i : nat) (r : ScanRule) (nodes : list SyntaxNode) (s : Store) :
  Forall (callOf i (fields r)) (dispatchEvents i r nodes s).
Proof.
  unfold dispatchEvents, measureEvents. apply Forall_app. split.
  - destruct (includes _ _); repeat constructor.
  - destruct (measureStep r nodes s) as [s2 [[]|e]]; [| constructor].
    constructor; [by cbn|].
    destruct (validateNodes r (fields r) nodes s2) as [s3 [found|e]]; [| constructor].
    eapply Forall_impl; [apply perNodeEvents_calls|]. by intros e [? _].
Qed.

Lemma ruleEvents_calls (i : nat) lang root (r : ScanRule) (s : Store) :
  Forall (callOf i (fields r)) (ruleEvents i lang root r s).
Proof.
  unfold ruleEvents. constructor; [by cbn|].
  destruct (preFilter r (fields r) root s) as [s1 [scope|e]]; [| constructor].
  constructor; [by cbn|].
  destruct (Query_new lang (composeQuery (fields r))) as [q|e]; [| constructor].
  constructor; [by cbn|].
  destruct (captures q scope) as [caps|e]; [apply dispatchEvents_calls | constructor].
Qed.

Lemma dispatchEvents_measure (i : nat) (r : ScanRule) (ns : list SyntaxNode) (s : Store)
    (j : nat) (self : RuleFields) (nodes : list SyntaxNode) :
  In (EvCall M_measureNodes j self nodes) (dispatchEvents i r ns s) <->
  j = i /\ self = fields r /\ nodes = ns /\ includes (ruleContext (fields r)) "measure" = true.
Proof.
  unfold dispatchEvents, measureEvents. rewrite in_app_iff. split.
  - intros [Hin|Hin].
    + destruct (includes _ _); [| by destruct Hin].
      destruct Hin as [Heq|[]]. by inversion Heq.
    + exfalso. destruct (measureStep r ns s) as [s2 [[]|e]]; [| by destruct Hin].
      destruct Hin as [Heq|Hin]; [discriminate|].
      destruct (validateNodes r (fields r) ns s2) as [s3 [found|e]]; [| by destruct Hin].
      pose proof (perNodeEvents_calls i r ns s3) as Hall.
      rewrite Forall_forall in Hall. apply list_elem_of_In, Hall in Hin.
      by destruct Hin as [_ Hm].
  - intros (-> & -> & -> & ->). left. by left.
Qed.

Lemma ruleEvents_measure (i : nat) lang root (r : ScanRule) (s : Store)
    (j : nat) (self : RuleFields) (nodes : list SyntaxNode) :
  In (EvCall M_measureNodes j self nodes) (ruleEvents i lang root r s) <->
  j = i /\ self = fields r /\ includes (ruleContext (fields r)) "measure" = true /\
  exists s1, capturedNodes lang root r s = (s1, Ok nodes).
Proof.
  unfold ruleEvents, capturedNodes.
  destruct (preFilter r (fields r) root s) as [s1 [scope|e]].
  2:{ split; [intros [Heq|[]]; discriminate | intros (_ & _ & _ & s' & Heq); discriminate]. }
  destruct (Query_new lang (composeQuery (fields r))) as [q|e].
  2:{ split; [intros [Heq|[Heq|[]]]; discriminate
             | intros (_ & _ & _ & s' & Heq); discriminate]. }
  destruct (captures q scope) as [caps|e].
  2:{ split; [intros [Heq|[Heq|[Heq|[]]]]; discriminate
             | intros (_ & _ & _ & s' & Heq); discriminate]. }
  split.
  - intros [Heq|[Heq|[Heq|Hin]]]; try discriminate.
    apply dispatchEvents_measure in Hin as (-> & -> & -> & Hinc).
    repeat split; [done|]. by exists s1.
  - intros (-> & -> & Hinc & s' & Heq). inversion Heq; subst.
    do 3 right. by apply dispatchEvents_measure.
Qed.

Lemma specFindings_cons_fst lang root (r : ScanRule) (rs : list ScanRule) (s : Store) :
  fst (specFindings lang root (r :: rs) s) =
  fst (specFindings lang root rs (fst (ruleFindings lang root (normalizeRule r) s))).
Proof.
  cbn [specFindings]. destruct (ruleFindings lang root (normalizeRule r) s) as [s1 found].
  cbn [fst]. by destruct (specFindings lang root rs s1).
Qed.

Lemma specEvents_calls lang root (rules : list ScanRule) :
  forall (k : nat) (s : Store) m j self args,
    In (EvCall m j self args) (specEvents k lang root rules s) ->
    exists i r, j = k + i /\ rules !! i = Some r /\ self = fields (normalizeRule r).
Proof.
  induction rules as [|r rs IH]; intros k s m j self args Hin; [by destruct Hin|].
  cbn [specEvents] in Hin. apply in_app_iff in Hin as [Hin|Hin].
  - pose proof (ruleEvents_calls k lang root (normalizeRule r) s) as Hall.
    rewrite Forall_forall in Hall. apply list_elem_of_In, Hall in Hin as [-> ->].
    exists 0, r. split; [lia | done].
  - apply IH in Hin as (i & r0 & -> & Hi & ->). exists (S i), r0. split; [lia | done].
Qed.

Lemma specEvents_preFilter lang root (rules : list ScanRule) :
  forall (k : nat) (s : Store) i r,
    rules !! i = Some r ->
    In (EvCall M_preFilter (k + i) (fields (normalizeRule r)) [root])
       (specEvents k lang root rules s).
Proof.
  induction rules as [|r0 rs IH]; intros k s i r Hi; [done|].
  cbn [specEvents]. apply in_app_iff. destruct i as [|i].
  - inversion Hi; subst. left. rewrite Nat.add_0_r. by left.
  - right. replace (k + S i) with (S k + i) by lia. by apply IH.
Qed.

Lemma specEvents_measure lang root (rules : list ScanRule) :
  forall (k : nat) (s : Store) j self nodes,
    In (EvCall M_measureNodes j self nodes) (specEvents k lang root rules s) <->
    exists i r,
      j = k + i /\ rules !! i = Some r /\ self = fields (normalizeRule r) /\
      includes (ruleContext (fields r)) "measure" = true /\
      exists s1,
        capturedNodes lang root (normalizeRule r)
          (fst (specFindings lang root (take i rules) s)) = (s1, Ok nodes).
Proof.
  induction rules as [|r0 rs IH]; intros k s j self nodes.
  - split; [by intros [] | by intros (i & r & _ & Hi & _)].
  - cbn [specEvents]. rewrite in_app_iff, ruleEvents_measure, IH. split.
    + intros [(-> & -> & Hinc & s1 & Hcap) | (i & r & -> & Hi & -> & Hinc & s1 & Hcap)].
      * exists 0, r0. split; [lia|]. repeat split; [done..|]. by exists s1.
      * exists (S i), r. split; [lia|]. repeat split; [done..|]. exists s1.
        cbn [take]. by rewrite specFindings_cons_fst.
    + intros (i & r & -> & Hi & -> & Hinc & s1 & Hcap). destruct i as [|i].
      * inversion Hi; subst. left. split; [lia|]. repeat split; [done..|]. by exists s1.
      * right. exists i, r. split; [lia|]. repeat split; [done..|]. exists s1.
        cbn [take] in Hcap. by rewrite specFindings_cons_fst in Hcap.
Qed.

(** ** Rules whose callbacks do not depend on the store *)

Lemma repeatableRule_storeIndependent (r : ScanRule) :
  repeatableRule r -> storeIndependentRule r.
Proof. intros (([? _] & [? _]) & ? & ?). by repeat split. Qed.

Lemma perNodeFindings_indep (r : ScanRule) (nodes : list SyntaxNode) :
  storeIndependent (validateNode r) ->
  forall s s', snd (perNodeFindings r nodes s) = snd (perNodeFindings r nodes s').
Proof.
  intros Hvn. induction nodes as [|n ns IH]; intros s s'; [reflexivity|].
  cbn [perNodeFindings]. pose proof (Hvn (fields r) n s s') as Heq.
  destruct (validateNode r (fields r) n s) as [s1 [found|e]],
           (validateNode r (fields r) n s') as [s1' [found'|e']];
    cbn [snd] in Heq; try discriminate; [| reflexivity].
  inversion Heq; subst. specialize (IH s1 s1').
  destruct (perNodeFindings r ns s1), (perNodeFindings r ns s1'). cbn [snd] in *.
  by rewrite IH.
Qed.

Lemma ruleFindings_indep lang root (r : ScanRule) :
  storeIndependentRule r ->
  forall s s', snd (ruleFindings lang root r s) = snd (ruleFindings lang root r s').
Proof.
  intros (Hpf & Hmn & Hvns & Hvn) s s'. unfold ruleFindings, capturedNodes, measureStep.
  pose proof (Hpf (fields r) root s s') as Heq.
  destruct (preFilter r (fields r) root s) as [s1 [scope|e]],
           (preFilter r (fields r) root s') as [s1' [scope'|e']];
    cbn [snd] in Heq; try discriminate; [| reflexivity].
  inversion Heq; subst scope'. clear Heq.
  destruct (Query_new lang (composeQuery (fields r))) as [q|e]; [| reflexivity].
  destruct (captures q scope) as [caps|e]; [| reflexivity].
  set (nodes := map node caps).
  assert (Hm : snd (if includes (ruleContext (fields r)) "measure"
                    then measureNodes r (fields r) nodes s1 else (s1, Ok tt)) =
               snd (if includes (ruleContext (fields r)) "measure"
                    then measureNodes r (fields r) nodes s1' else (s1', Ok tt))).
  { destruct (includes _ _); [apply Hmn | reflexivity]. }
  destruct (if includes (ruleContext (fields r)) "measure"
            then measureNodes r (fields r) nodes s1 else (s1, Ok tt)) as [s2 [[]|e]],
           (if includes (ruleContext (fields r)) "measure"
            then measureNodes r (fields r) nodes s1' else (s1', Ok tt)) as [s2' [[]|e']];
    cbn [snd] in Hm; try discriminate; [| reflexivity].
  pose proof (Hvns (fields r) nodes s2 s2') as Heq.
  destruct (validateNodes r (fields r) nodes s2) as [s3 [found|e]],
           (validateNodes r (fields r) nodes s2') as [s3' [found'|e']];
    cbn [snd] in Heq; try discriminate; [| reflexivity].
  inversion Heq; subst found'. pose proof (perNodeFindings_indep r nodes Hvn s3 s3') as Hp.
  destruct (perNodeFindings r nodes s3), (perNodeFindings r nodes s3'). cbn [snd] in *.
  by rewrite Hp.
Qed.

Lemma specFindings_indep lang root (rules : list ScanRule) :
  Forall storeIndependentRule rules ->
  forall s s', snd (specFindings lang root rules s) = snd (specFindings lang root rules s').
Proof.
  induction 1 as [|r rs Hr Hrs IH]; intros s s'; [reflexivity|].
  cbn [specFindings].
  assert (Hr' : storeIndependentRule (normalizeRule r)) by exact Hr.
  pose proof (ruleFindings_indep lang root (normalizeRule r) Hr' s s') as Heq.
  destruct (ruleFindings lang root (normalizeRule r) s) as [s1 found],
           (ruleFindings lang root (normalizeRule r) s') as [s1' found'].
  cbn [snd] in Heq. subst found'. specialize (IH s1 s1').
  destruct (specFindings lang root rs s1), (specFindings lang root rs s1'). cbn [snd] in *.
  by rewrite IH.
Qed.

Lemma specFindings_app lang root (pre post : list ScanRule) :
  forall s,
    specFindings lang root (pre ++ post) s =
    (fst (specFindings lang root post (fst (specFindings lang root pre s))),
     snd (specFindings lang root pre s) ++
     snd (specFindings lang root post (fst (specFindings lang root pre s)))).
Proof.
  induction pre as [|r rs IH]; intros s.
  - cbn. by destruct (specFindings lang root post s).
  - cbn [app specFindings].
    destruct (ruleFindings lang root (normalizeRule r) s) as [s1 found].
    rewrite IH. destruct (specFindings lang root rs s1) as [s2 rest]. cbn [fst snd].
    by rewrite app_assoc.
Qed.

Lemma ruleFindings_query_error lang root (r : ScanRule) (s s1 : Store) (e : Exn) :
  capturedNodes lang root r s = (s1, Throw e) ->
  ruleFindings lang root r s = (s1, []).
Proof. intros Hcap. unfold ruleFindings. by rewrite Hcap. Qed.

Lemma specFindings_all_fail lang root (rules : list ScanRule) :
  Forall (fun r => exists e, Query_new lang (composeQuery (fields r)) = Throw e) rules ->
  forall s, snd (specFindings lang root rules s) = [].
Proof.
  induction 1 as [|r rs [e He] Hrs IH]; intros s; [reflexivity|].
  cbn [specFindings].
  assert (Hr : snd (ruleFindings lang root (normalizeRule r) s) = []).
  { unfold ruleFindings, capturedNodes.
    change (composeQuery (fields (normalizeRule r))) with (composeQuery (fields r)).
    destruct (preFilter _ _ _ _) as [s1 [scope|e1]]; [by rewrite He | reflexivity]. }
  destruct (ruleFindings lang root (normalizeRule r) s) as [s1 found]. cbn [snd] in Hr.
  subst found. specialize (IH s1). destruct (specFindings lang root rs s1). cbn [snd] in *.
  by rewrite IH.
Qed.

(** With a per-node validator that always returns, the per-node findings are
    the results for the nodes, concatenated in capture order. *)
Lemma perNodeFindings_flat_map (r : ScanRule)
    (g : RuleFields -> SyntaxNode -> list ScanResult) :
  (forall self n s, snd (validateNode r self n s) = Ok (g self n)) ->
  forall nodes s, snd (perNodeFindings r nodes s) = flat_map (g (fields r)) nodes.
Proof.
  intros Hg nodes. induction nodes as [|n ns IH]; intros s; [reflexivity|].
  cbn [perNodeFindings flat_map]. pose proof (Hg (fields r) n s) as Hn.
  destruct (validateNode r (fields r) n s) as [s1 [found|e]]; cbn [snd] in Hn;
    [| discriminate].
  inversion Hn; subst found. specialize (IH s1).
  destruct (perNodeFindings r ns s1). cbn [snd] in *. by rewrite IH.
Qed.

(** A priority above [VIOLATION] is always overwritten, whatever the value of
    [VIOLATION]. *)
Lemma priority_above_is_rewritten (st : State) (i : nat) (r : ScanRule) :
  scannerRules (this st) !! i = Some r ->
  (VIOLATION < Priority (fields r))%Z ->
  scannerRules (this (fst (commonScan st))) !! i <> Some r.
Proof.
  intros Hi Hlt. rewrite commonScan_run. cbn [fst this setRules scannerRules].
  rewrite list_lookup_fmap, Hi. cbn. intros Heq. inversion Heq as [Hr].
  apply (f_equal (fun x => Priority (fields x))) in Hr. cbn in Hr.
  rewrite normalizePriority_min in Hr. lia.
Qed.

(** The older [dump] prints the records of fragment and offsets, one for
    each capture of each match, and returns nothing. *)
Lemma Legacy_dump_prints_records (queryString : string) (st : State)
    (query : TreeSitter.Query) (found : list QueryMatch) :
  Query_new (treeSitterLanguage (this st)) (dumpQuery queryString) = Ok query ->
  matches query (rootNode (treeSitterNodeTree (this st))) = Ok found ->
  snd (Legacy.dump queryString st) = Ok tt /\
  console (fst (Legacy.dump queryString st)) =
  console st ++ [dumpSpec (sourceCodeToScan (this st)) (flat_map captures_of found)].
Proof.
  intros Hq Hm. unfold Legacy.dump, bind, newQuery, runMatches, console_write, modify.
  fold (dumpQuery queryString). cbn. rewrite Hq. cbn. rewrite Hm. cbn.
  split; [reflexivity|]. unfold dumpSpec. do 3 f_equal. clear Hm.
  induction found as [|m ms IH]; [reflexivity|].
  cbn [flat_map]. by rewrite map_app, IH.
Qed.

Lemma perNode_stops_at_throw (i : nat) (r : ScanRule) (n : SyntaxNode)
    (after : list SyntaxNode) (s4 : Store) (e : Exn) (before : list SyntaxNode) :
  forall s,
    perNodeError r before s = None ->
    validateNode r (fields r) n (fst (perNodeFindings r before s)) = (s4, Throw e) ->
    perNodeFindings r (before ++ n :: after) s = (s4, snd (perNodeFindings r before s)) /\
    perNodeError r (before ++ n :: after) s = Some e /\
    perNodeEvents i r (before ++ n :: after) s =
      map (validateNodeCall i (fields r)) (before ++ [n]).
Proof.
  induction before as [|b bs IH]; intros s Hnone Hthrow.
  - cbn in *. by rewrite Hthrow.
  - cbn [app perNodeFindings perNodeError perNodeEvents map] in *.
    destruct (validateNode r (fields r) b s) as [s1 [found|e1]]; [| discriminate].
    destruct (perNodeFindings r bs s1) as [s2 rest] eqn:Hbs. cbn [fst snd] in *.
    destruct (IH s1 Hnone) as (Hf & He & Hev); [by rewrite Hbs|].
    rewrite Hf, He, Hev, Hbs. by cbn.
Qed.

(** The per-node loop stops at the first node on which [validateNode] throws. *)
Lemma perNodeError_stops (r : ScanRule) (nodes : list SyntaxNode) :
  forall s e,
    perNodeError r nodes s = Some e ->
    exists before n after s4,
      nodes = before ++ n :: after /\
      perNodeError r before s = None /\
      validateNode r (fields r) n (fst (perNodeFindings r before s)) = (s4, Throw e).
Proof.
  induction nodes as [|n ns IH]; intros s e He; [discriminate|].
  cbn [perNodeError] in He.
  destruct (validateNode r (fields r) n s) as [s1 [found|e1]] eqn:Hn.
  - destruct (IH s1 e He) as (before & m & after & s4 & -> & Hnone & Hthrow).
    exists (n :: before), m, after, s4. cbn [app perNodeError perNodeFindings]. rewrite Hn.
    split; [reflexivity|]. split; [exact Hnone|].
    by destruct (perNodeFindings r before s1) as [s2 rest].
  - inversion He; subst e1. exists [], n, ns, s1. cbn. by rewrite Hn.
Qed.

Lemma perNodeError_neverThrows (r : ScanRule) (nodes : list SyntaxNode) :
  neverThrows (validateNode r) -> forall s, perNodeError r nodes s = None.
Proof.
  intros Hnt. induction nodes as [|n ns IH]; intros s; [reflexivity|].
  cbn [perNodeError]. destruct (Hnt (fields r) n s) as [found Hf].
  destruct (validateNode r (fields r) n s) as [s1 [found'|e]]; cbn [snd] in Hf;
    [apply IH | discriminate].
Qed.

(** What a successful rule adds: the findings of the bulk validator and
    those of the per-node validator for every captured node. *)
Lemma successful_rule_findings lang root (r : ScanRule) (s : Store) :
  successful lang root r s = true ->
  exists s1 s2 s3 nodes bulk,
    capturedNodes lang root r s = (s1, Ok nodes) /\
    measureStep r nodes s1 = (s2, Ok tt) /\
    validateNodes r (fields r) nodes s2 = (s3, Ok bulk) /\
    perNodeError r nodes s3 = None /\
    snd (ruleFindings lang root r s) = bulk ++ snd (perNodeFindings r nodes s3).
Proof.
  unfold successful, ruleError, ruleFindings. intros Hs.
  destruct (capturedNodes lang root r s) as [s1 [nodes|e]]; [| discriminate].
  destruct (measureStep r nodes s1) as [s2 [[]|e]] eqn:Hm; [| discriminate].
  destruct (validateNodes r (fields r) nodes s2) as [s3 [bulk|e]] eqn:Hv; [| discriminate].
  exists s1, s2, s3, nodes, bulk. split; [reflexivity|]. do 2 (split; [assumption|]).
  split; [by destruct (perNodeError r nodes s3) | by destruct (perNodeFindings r nodes s3)].
Qed.

(** What a rule that ends in the [catch] clause has added: nothing, unless
    it was stopped by [validateNode] on a captured node. *)
Lemma failed_rule_findings lang root (r : ScanRule) (s : Store) :
  successful lang root r s = false ->
  snd (ruleFindings lang root r s) = [] \/
  exists s1 s2 s3 s4 before n after bulk e,
    capturedNodes lang root r s = (s1, Ok (before ++ n :: after)) /\
    measureStep r (before ++ n :: after) s1 = (s2, Ok tt) /\
    validateNodes r (fields r) (before ++ n :: after) s2 = (s3, Ok bulk) /\
    perNodeError r before s3 = None /\
    validateNode r (fields r) n (fst (perNodeFindings r before s3)) = (s4, Throw e) /\
    snd (ruleFindings lang root r s) = bulk ++ snd (perNodeFindings r before s3).
Proof.
  unfold successful, ruleError, ruleFindings. intros Hs.
  destruct (capturedNodes lang root r s) as [s1 [nodes|e]]; [| by left].
  destruct (measureStep r nodes s1) as [s2 [[]|e]] eqn:Hm; [| by left].
  destruct (validateNodes r (fields r) nodes s2) as [s3 [bulk|e]] eqn:Hv; [| by left].
  destruct (perNodeError r nodes s3) as [e|] eqn:He; [| discriminate].
  destruct (perNodeError_stops r nodes s3 e He) as (before & n & after & s4 & -> & Hnone & Hthrow).
  right. exists s1, s2, s3, s4, before, n, after, bulk, e.
  destruct (perNode_stops_at_throw 0 r n after s4 e before s3 Hnone Hthrow) as (Hf & _ & _).
  rewrite Hf. split; [reflexivity|]. do 3 (split; [assumption|]).
  split; [assumption | reflexivity].
Qed.

Lemma failed_rule_adds_nothing lang root (r : ScanRule) (s : Store) :
  neverThrows (validateNode r) ->
  successful lang root r s = false -> snd (ruleFindings lang root r s) = [].
Proof.
  intros Hnt. unfold successful, ruleError, ruleFindings.
  destruct (capturedNodes lang root r s) as [s1 [nodes|e]]; [| reflexivity].
  destruct (measureStep r nodes s1) as [s2 [[]|e]]; [| reflexivity].
  destruct (validateNodes r (fields r) nodes s2) as [s3 [found|e]]; [| reflexivity].
  rewrite (perNodeError_neverThrows r nodes Hnt s3). discriminate.
Qed.

(** The findings of the successful rules are in the list of the run, in
    the same order. *)
Lemma claimedFindings_sublist lang root (rules : list ScanRule) :
  forall s,
    sublist (claimedFindings lang root rules s) (snd (specFindings lang root rules s)).
Proof.
  induction rules as [|r rs IH]; intros s; [constructor|].
  cbn [claimedFindings specFindings].
  destruct (ruleFindings lang root (normalizeRule r) s) as [s1 found]. cbn [fst snd].
  specialize (IH s1). destruct (specFindings lang root rs s1) as [s2 rest]. cbn [snd] in *.
  apply sublist_app; [| exact IH].
  destruct (successful _ _ _ _); [reflexivity | apply sublist_nil_l].
Qed.

Lemma claimedFindings_neverThrows lang root (rules : list ScanRule) :
  Forall (fun r => neverThrows (validateNode r)) rules ->
  forall s, snd (specFindings lang root rules s) = claimedFindings lang root rules s.
Proof.
  induction 1 as [|r rs Hr Hrs IH]; intros s; [reflexivity|].
  cbn [claimedFindings specFindings].
  assert (Hr' : neverThrows (validateNode (normalizeRule r))) by exact Hr.
  pose proof (failed_rule_adds_nothing lang root (normalizeRule r) s Hr') as Hfail.
  destruct (ruleFindings lang root (normalizeRule r) s) as [s1 found]. cbn [fst snd] in *.
  specialize (IH s1). destruct (specFindings lang root rs s1) as [s2 rest]. cbn [snd] in *.
  rewrite IH. destruct (successful _ _ _ _); [reflexivity|]. by rewrite Hfail.
Qed.

(** ** The claims *)

(** C1. [scan] and [measure] return a finding list from every state, the
    empty rule list included. When the pre-filter, the compilation or the
    execution of the query of a rule throws, the run still returns: the list
    is made of the findings of the rules before it followed by those of the
    rules after it, evaluated from the store the failed rule left. When the
    query of every rule fails to compile, the list returned is empty. *)
Theorem scan_never_throws (st : State) :
  let lang := treeSitterLanguage (this st) in
  let root := rootNode (treeSitterNodeTree (this st)) in
  (exists found, snd (scan st) = Ok found /\ snd (measure st) = Ok found) /\
  (forall (pre post : list ScanRule) (r : ScanRule) (s1 : Store) (e : Exn),
     scannerRules (this st) = pre ++ r :: post ->
     capturedNodes lang root (normalizeRule r)
       (fst (specFindings lang root pre (store st))) = (s1, Throw e) ->
     snd (scan st) =
     Ok (snd (specFindings lang root pre (store st)) ++
         snd (specFindings lang root post s1))) /\
  (Forall (fun r => exists e, Query_new lang (composeQuery (fields r)) = Throw e)
          (scannerRules (this st)) ->
   snd (scan st) = Ok []).
Proof.
  intros lang root. unfold measure. rewrite scan_eq, commonScan_run. cbn [snd].
  fold lang root. split; [eauto|]. split.
  - intros pre post r s1 e -> Hcap. f_equal.
    rewrite specFindings_app. cbn [snd specFindings].
    rewrite (ruleFindings_query_error _ _ _ _ _ _ Hcap).
    by destruct (specFindings lang root post s1).
  - intros Hall. f_equal. by apply specFindings_all_fail.
Qed.

(** C2. The priority a rule is evaluated with is the minimum of its declared
    priority and [VIOLATION]: that value is written to the rule object, every
    call of a method of the rule sees it as the rule's priority, and the rule
    is evaluated whatever priority it declared (its pre-filter is called). *)
Theorem effective_priority_is_min (st : State) (i : nat) (r : ScanRule) :
  scannerRules (this st) !! i = Some r ->
  let p := Z.min (Priority (fields r)) VIOLATION in
  normalizePriority (Priority (fields r)) = p /\
  scannerRules (this (fst (scan st))) !! i = Some (setFields r (setPriority (fields r) p)) /\
  In (EvCall M_preFilter i (setPriority (fields r) p) [rootNode (treeSitterNodeTree (this st))])
     (callsDuring scan st) /\
  (forall m self args,
     In (EvCall m i self args) (callsDuring scan st) -> self = setPriority (fields r) p).
Proof.
  intros Hi p. rewrite callsDuring_scan, scan_eq, callsDuring_commonScan, commonScan_run.
  cbn [fst this].
  assert (Hp : normalizePriority (Priority (fields r)) = p) by apply normalizePriority_min.
  split; [done|]. split; [| split].
  - cbn [setRules scannerRules]. rewrite list_lookup_fmap, Hi. cbn.
    unfold normalizeRule. by rewrite Hp.
  - rewrite <- Hp. by apply (specEvents_preFilter _ _ _ 0 _ i r).
  - intros m self args Hin. apply specEvents_calls in Hin as (i' & r' & Heq & Hi' & ->).
    cbn in Heq. subst i'. rewrite Hi in Hi'. inversion Hi'; subst r'.
    unfold normalizeRule. cbn. by rewrite Hp.
Qed.

(** C3 (amended). A rule's [measureNodes] is called during a run exactly
    when the rule's context, [scan] when unset, contains [measure] and its
    pre-filter and query succeed; it is given the captured nodes. Whether the
    run was started by [scan] or by [measure] makes no difference. *)
Theorem measureNodes_called_iff (st : State) (i : nat) (self : RuleFields)
    (nodes : list SyntaxNode) :
  let lang := treeSitterLanguage (this st) in
  let root := rootNode (treeSitterNodeTree (this st)) in
  let rules := scannerRules (this st) in
  (In (EvCall M_measureNodes i self nodes) (callsDuring scan st) <->
   exists r,
     rules !! i = Some r /\ self = fields (normalizeRule r) /\
     includes (ruleContext (fields r)) "measure" = true /\
     exists s1,
       capturedNodes lang root (normalizeRule r)
         (fst (specFindings lang root (take i rules) (store st))) = (s1, Ok nodes)) /\
  callsDuring measure st = callsDuring scan st.
Proof.
  intros lang root rules. split; [| by rewrite callsDuring_scan].
  rewrite callsDuring_scan, callsDuring_commonScan. fold lang root rules.
  rewrite specEvents_measure. split.
  - intros (j & r & Heq & Hrest). cbn in Heq. subst j. by exists r.
  - intros (r & Hrest). by exists i, r.
Qed.

(** C4 (amended). The list returned is the concatenation, in rule order, of
    what each rule appended before its evaluation ended, and every iteration
    only appends to the list. A successful rule appended the findings of
    [validateNodes] followed by those of [validateNode] for every captured
    node in capture order. A rule that ended in the [catch] clause appended
    nothing, unless it was stopped by [validateNode] on a captured node: then
    the findings of [validateNodes] and of the nodes before that one stay in
    the list. So the findings of the successful rules are in the list in the
    order claimed, and they are the whole list when no [validateNode] throws. *)
Theorem findings_in_rule_and_capture_order (st : State) :
  let lang := treeSitterLanguage (this st) in
  let root := rootNode (treeSitterNodeTree (this st)) in
  let rules := scannerRules (this st) in
  snd (scan st) = Ok (snd (specFindings lang root rules (store st))) /\
  snd (measure st) = Ok (snd (specFindings lang root rules (store st))) /\
  (forall (i : nat) (fr : Frame),
     exists added, scanResultList (fst (evalRule i fr)) = scanResultList fr ++ added) /\
  (forall (r : ScanRule) (s : Store),
     successful lang root r s = true ->
     exists s1 s2 s3 nodes bulk,
       capturedNodes lang root r s = (s1, Ok nodes) /\
       measureStep r nodes s1 = (s2, Ok tt) /\
       validateNodes r (fields r) nodes s2 = (s3, Ok bulk) /\
       perNodeError r nodes s3 = None /\
       snd (ruleFindings lang root r s) = bulk ++ snd (perNodeFindings r nodes s3)) /\
  (forall (r : ScanRule) (s : Store),
     successful lang root r s = false ->
     snd (ruleFindings lang root r s) = [] \/
     exists s1 s2 s3 s4 before n after bulk e,
       capturedNodes lang root r s = (s1, Ok (before ++ n :: after)) /\
       measureStep r (before ++ n :: after) s1 = (s2, Ok tt) /\
       validateNodes r (fields r) (before ++ n :: after) s2 = (s3, Ok bulk) /\
       perNodeError r before s3 = None /\
       validateNode r (fields r) n (fst (perNodeFindings r before s3)) = (s4, Throw e) /\
       snd (ruleFindings lang root r s) = bulk ++ snd (perNodeFindings r before s3)) /\
  sublist (claimedFindings lang root rules (store st))
          (snd (specFindings lang root rules (store st))) /\
  (Forall (fun r => neverThrows (validateNode r)) rules ->
   snd (scan st) = Ok (claimedFindings lang root rules (store st))).
Proof.
  intros lang root rules. unfold measure. rewrite scan_eq, commonScan_run. cbn [snd].
  fold lang root rules.
  split; [done|]. split; [done|]. split; [| split; [| split; [| split]]].
  - intros i fr.
    destruct (scannerRules (this (heap fr)) !! i) as [r|] eqn:Hi.
    + rewrite (evalRule_run i r) by done. cbn [fst extend scanResultList withRules]. eauto.
    + unfold evalRule. rewrite Hi. exists []. cbn. by rewrite app_nil_r.
  - apply successful_rule_findings.
  - apply failed_rule_findings.
  - apply claimedFindings_sublist.
  - intros Hnt. f_equal. by apply claimedFindings_neverThrows.
Qed.

Lemma dump_this (queryString : string) (st : State) : this (fst (dump queryString st)) = this st.
Proof.
  unfold dump, bind, newQuery, runCaptures, ret. cbn.
  destruct (Query_new _ _) as [q|e]; [| reflexivity]. cbn.
  by destruct (captures q _).
Qed.

(** C5 (amended). A run leaves the tree, the grammar and the source text as
    they were, and changes the rules in one field only: the priority of every
    rule becomes the minimum of its old value and [VIOLATION]. So a rule set
    whose priorities do not exceed [VIOLATION] is left as it was, and so is
    every rule set by a second run. [measure] changes what [scan] changes;
    [dump] changes none of the four. *)
Theorem run_rewrites_only_priorities (st : State) :
  treeSitterNodeTree (this (fst (scan st))) = treeSitterNodeTree (this st) /\
  treeSitterLanguage (this (fst (scan st))) = treeSitterLanguage (this st) /\
  sourceCodeToScan (this (fst (scan st))) = sourceCodeToScan (this st) /\
  scannerRules (this (fst (scan st))) =
    map (fun r => setFields r (setPriority (fields r) (Z.min (Priority (fields r)) VIOLATION)))
        (scannerRules (this st)) /\
  (Forall (fun r => (Priority (fields r) <= VIOLATION)%Z) (scannerRules (this st)) ->
   this (fst (scan st)) = this st) /\
  this (fst (scan (fst (scan st)))) = this (fst (scan st)) /\
  fst (measure st) = fst (scan st) /\
  (forall queryString, this (fst (dump queryString st)) = this st).
Proof.
  unfold measure. rewrite !scan_eq, !commonScan_run. cbn [fst this setRules scannerRules
    treeSitterNodeTree treeSitterLanguage sourceCodeToScan].
  do 3 (split; [reflexivity|]). split; [| split; [| split; [| split]]].
  - apply map_ext. intros r. unfold normalizeRule. by rewrite normalizePriority_min.
  - intros Hall. destruct (this st) as [t l rs src]. unfold setRules. cbn in *. f_equal.
    induction Hall as [|r rs' Hr Hrs IH]; [reflexivity|].
    cbn [map]. by rewrite normalizeRule_le, IH.
  - unfold setRules. cbn. f_equal. rewrite map_map. apply map_ext. intros r.
    apply normalizeRule_idem.
  - reflexivity.
  - intros q. apply dump_this.
Qed.

(** C6 (amended). When the query compiles and runs over the root of the
    tree, [dump] returns the serialised list holding, for each capture in
    order, the string made of [@], the capture name, [=] and the text of the
    node; for nodes whose text is the source between their offsets, that text
    is the source fragment. No offset is part of the value. The empty query
    string stands for the class-declaration pattern. *)
Theorem dump_returns_capture_texts (queryString : string) (st : State)
    (query : TreeSitter.Query) (caps : list QueryCapture) :
  Query_new (treeSitterLanguage (this st)) (dumpQuery queryString) = Ok query ->
  captures query (rootNode (treeSitterNodeTree (this st))) = Ok caps ->
  snd (dump queryString st) = Ok (JSON_stringify_strings (map dumpEntry caps)) /\
  (Forall (fun c => text (node c) =
                    js_substring (sourceCodeToScan (this st))
                      (startIndex (node c)) (endIndex (node c))) caps ->
   snd (dump queryString st) =
   Ok (JSON_stringify_strings
         (map (fun c => "@" +:+ name c +:+ "=" +:+
                        js_substring (sourceCodeToScan (this st))
                          (startIndex (node c)) (endIndex (node c))) caps))).
Proof.
  intros Hq Hc.
  assert (Hd : snd (dump queryString st) = Ok (JSON_stringify_strings (map dumpEntry caps))).
  { unfold dump, bind, newQuery, runCaptures, ret. fold (dumpQuery queryString). cbn.
    rewrite Hq. cbn. by rewrite Hc. }
  split; [exact Hd|]. intros Hwf. rewrite Hd. do 2 f_equal. clear Hc Hd.
  induction Hwf as [|c cs Hc' _ IH]; [reflexivity|].
  cbn [map]. unfold dumpEntry at 1. by rewrite Hc', IH.
Qed.

Lemma append_empty_r (s : string) : s +:+ EmptyString = s.
Proof.
  induction s as [|c s IH]; [reflexivity|].
  change (String c (s +:+ EmptyString) = String c s). by rewrite IH.
Qed.

(** C7 (amended). The composed query is the base query with the match
    constraint on [@exp] appended when [RegEx] is a non-empty string, and the
    base query unchanged when [RegEx] is absent or empty; the pattern is not
    inspected. The older variant appends the constraint whenever [RegEx] is
    present, the empty string included. *)
Theorem composeQuery_appends_nonempty_RegEx (f : RuleFields) :
  composeQuery f =
    match RegEx f with
    | Some regEx =>
        if String.eqb regEx EmptyString then Query f else Query f +:+ matchConstraint regEx
    | None => Query f
    end /\
  Legacy.composeQuery f = composedQuerySpec f.
Proof.
  split.
  - unfold composeQuery, matchConstraint. destruct (RegEx f) as [[|c regEx]|]; cbn.
    + apply append_empty_r.
    + reflexivity.
    + apply append_empty_r.
  - unfold Legacy.composeQuery, composedQuerySpec, matchConstraint. by destruct (RegEx f).
Qed.


(** C9 (amended). A second [scan] of the same engine returns the list the
    first one returned when every rule has pure validators and what its
    pre-filter and its measurement callback return or throw does not depend on
    the store. Both may write to the store, and the first run may have
    lowered priorities. *)
Theorem scan_twice_same_findings (st : State) :
  Forall repeatableRule (scannerRules (this st)) ->
  snd (scan (fst (scan st))) = snd (scan st).
Proof.
  intros Hpure. rewrite !scan_eq, !commonScan_run.
  cbn [fst snd this store setRules scannerRules treeSitterLanguage treeSitterNodeTree].
  f_equal. rewrite specFindings_normalized. apply specFindings_indep.
  eapply Forall_impl; [exact Hpure|]. apply repeatableRule_storeIndependent.
Qed.

(** C10. [scan] and [measure] are the same function of the state: they
    return the same list and leave the same state. *)
Theorem scan_measure_agree (st : State) :
  snd (scan st) = snd (measure st) /\ fst (scan st) = fst (measure st).
Proof. unfold measure. by rewrite scan_eq. Qed.

End Proofs.

(** * Further properties of ScanManager.ts *)

Section MoreProperties.
Context `{Host}.

Lemma specConsole_app lang root (pre post : list ScanRule) :
  forall s,
    specConsole lang root (pre ++ post) s =
    specConsole lang root pre s ++
    specConsole lang root post (fst (specFindings lang root pre s)).
Proof.
  induction pre as [|r rs IH]; intros s; [reflexivity|].
  cbn [app specConsole]. rewrite IH, specFindings_cons_fst. by rewrite app_assoc.
Qed.

Lemma commonScan_withScannerRules (st : State) (rs : list ScanRule) :
  let lang := treeSitterLanguage (this st) in
  let root := rootNode (treeSitterNodeTree (this st)) in
  commonScan (withScannerRules st rs) =
  ({| this := setRules (this st) (map normalizeRule rs);
      store := fst (specFindings lang root rs (store st));
      console := console st ++ specConsole lang root rs (store st);
      trace := trace st ++ specEvents 0 lang root rs (store st) |},
   Ok (snd (specFindings lang root rs (store st)))).
Proof. intros lang root. by rewrite commonScan_run. Qed.

(** X1. A run over an empty rule list returns the empty list and leaves the
    whole state as it was: nothing is logged, called or written. *)
Theorem scan_of_no_rules (st : State) :
  scannerRules (this st) = [] ->
  scan st = (st, Ok []) /\ measure st = (st, Ok []).
Proof.
  intros Hnil. unfold measure. rewrite scan_eq, commonScan_run, Hnil. cbn.
  destruct st as [[t l rs src] s c tr]. cbn in *. subst rs.
  unfold setRules. cbn. by rewrite !app_nil_r.
Qed.

(** X2. Runs compose along the rule list: scanning [pre ++ post] returns the
    findings of a scan of [pre] followed by those of a scan of [post] started
    from the state the first scan left, and both ways end with the same
    store, console and rule objects. *)
Theorem scan_app (st : State) (pre post : list ScanRule) :
  let st1 := fst (scan (withScannerRules st pre)) in
  let st2 := fst (scan (withScannerRules st1 post)) in
  let st' := fst (scan (withScannerRules st (pre ++ post))) in
  (exists found1 found2,
     snd (scan (withScannerRules st pre)) = Ok found1 /\
     snd (scan (withScannerRules st1 post)) = Ok found2 /\
     snd (scan (withScannerRules st (pre ++ post))) = Ok (found1 ++ found2)) /\
  store st' = store st2 /\
  console st' = console st2 /\
  scannerRules (this st') = scannerRules (this st1) ++ scannerRules (this st2).
Proof.
  cbv zeta. rewrite !scan_eq, !commonScan_withScannerRules.
  cbn [fst snd this store console setRules scannerRules treeSitterLanguage
       treeSitterNodeTree].
  rewrite specFindings_app, specConsole_app, map_app. cbn [fst snd].
  split; [eauto|]. split; [done|]. split; [by rewrite app_assoc | done].
Qed.

(** ** One rule, case by case *)

Lemma perNodeEvents_all_return (i : nat) (r : ScanRule) (nodes : list SyntaxNode) :
  forall s,
    perNodeError r nodes s = None ->
    perNodeEvents i r nodes s = map (validateNodeCall i (fields r)) nodes.
Proof.
  induction nodes as [|n ns IH]; intros s Hnone; [reflexivity|].
  cbn [perNodeError perNodeEvents map] in *.
  destruct (validateNode r (fields r) n s) as [s1 [found|e]]; [| discriminate].
  by rewrite IH.
Qed.

Lemma filter_validateNodeCalls (i : nat) (f : RuleFields) (nodes : list SyntaxNode) :
  List.filter isValidateNodeCall (map (validateNodeCall i f) nodes) =
  map (validateNodeCall i f) nodes.
Proof. induction nodes as [|n ns IH]; [reflexivity|]. cbn. by rewrite IH. Qed.

Lemma filter_measureEvents (i : nat) (r : ScanRule) (nodes : list SyntaxNode) :
  List.filter isValidateNodeCall (measureEvents i r nodes) = [].
Proof. unfold measureEvents. by destruct (includes _ _). Qed.

Lemma ruleEvents_after_captures (i : nat) lang root (r : ScanRule) (s s1 : Store)
    (nodes : list SyntaxNode) :
  capturedNodes lang root r s = (s1, Ok nodes) ->
  exists scope,
    ruleEvents i lang root r s =
    [EvCall M_preFilter i (fields r) [root];
     EvQueryNew (composeQuery (fields r));
     EvCaptures (composeQuery (fields r)) scope] ++ dispatchEvents i r nodes s1.
Proof.
  unfold capturedNodes, ruleEvents. intros Hcap.
  destruct (preFilter r (fields r) root s) as [s0 [scope|e]]; [| discriminate].
  destruct (Query_new lang (composeQuery (fields r))) as [q|e]; [| discriminate].
  destruct (captures q scope) as [caps|e]; [| discriminate].
  inversion Hcap; subst. by exists scope.
Qed.

(** The calls logged while the iteration for index [i] runs from [fr]. *)
Lemma evalRule_trace (i : nat) (r : ScanRule) (fr : Frame) :
  scannerRules (this (heap fr)) !! i = Some r ->
  drop (length (trace (heap fr))) (trace (heap (fst (evalRule i fr)))) =
  ruleEvents i (treeSitterLanguage (this (heap fr)))
    (rootNode (treeSitterNodeTree (this (heap fr)))) (normalizeRule r) (store (heap fr)).
Proof.
  intros Hi. rewrite (evalRule_run i r) by done. cbn [fst extend heap trace].
  by rewrite drop_app_length.
Qed.

(** X3. When [validateNode] throws on a captured node, the findings already
    pushed for the rule stay in the list (those of [validateNodes] and of the
    nodes before), the nodes after it are not validated, one console line
    reports the error, and the iteration ends normally. *)
Theorem validateNode_throw_keeps_earlier_findings (fr : Frame) (i : nat) (r : ScanRule)
    (s1 s2 s3 s4 : Store) (before after : list SyntaxNode) (n : SyntaxNode)
    (found : list ScanResult) (e : Exn) :
  let lang := treeSitterLanguage (this (heap fr)) in
  let root := rootNode (treeSitterNodeTree (this (heap fr))) in
  let r' := normalizeRule r in
  let nodes := before ++ n :: after in
  scannerRules (this (heap fr)) !! i = Some r ->
  capturedNodes lang root r' (store (heap fr)) = (s1, Ok nodes) ->
  measureStep r' nodes s1 = (s2, Ok tt) ->
  validateNodes r (fields r') nodes s2 = (s3, Ok found) ->
  perNodeError r' before s3 = None ->
  validateNode r (fields r') n (fst (perNodeFindings r' before s3)) = (s4, Throw e) ->
  snd (evalRule i fr) = Ok tt /\
  scanResultList (fst (evalRule i fr)) =
    scanResultList fr ++ found ++ snd (perNodeFindings r' before s3) /\
  console (heap (fst (evalRule i fr))) = console (heap fr) ++ [errorPrefix +:+ e] /\
  List.filter isValidateNodeCall
         (drop (length (trace (heap fr))) (trace (heap (fst (evalRule i fr))))) =
    map (validateNodeCall i (fields r')) (before ++ [n]).
Proof.
  intros lang root r' nodes Hi Hcap Hm Hvns Hnone Hthrow.
  destruct (perNode_stops_at_throw i r' n after s4 e before s3 Hnone Hthrow)
    as (Hf & He & Hev).
  rewrite (evalRule_trace i r) by done. rewrite (evalRule_run i r) by done.
  fold lang root r'. cbn [fst snd extend heap console scanResultList].
  unfold ruleConsole, ruleError, ruleFindings. rewrite Hcap, Hm.
  change (validateNodes r') with (validateNodes r). rewrite Hvns.
  fold nodes in Hf, He, Hev |- *. rewrite Hf, He. cbn [snd].
  repeat split.
  destruct (ruleEvents_after_captures i lang root r' _ _ _ Hcap) as [scope ->].
  unfold dispatchEvents. rewrite Hm.
  change (validateNodes r') with (validateNodes r). rewrite Hvns, Hev.
  rewrite !List.filter_app, filter_measureEvents. cbn [List.filter isValidateNodeCall app].
  apply filter_validateNodeCalls.
Qed.

(** X4. A rule whose query captures nothing never has [validateNode]
    called. Its [validateNodes] is called exactly once, on the empty list,
    when the context does not name [measure] or [measureNodes] returns on the
    empty list, and the rule adds what that call returns; when [measureNodes]
    throws, no validator is called and the rule adds nothing. *)
Theorem no_captures_only_bulk_validator (fr : Frame) (i : nat) (r : ScanRule) (s1 : Store) :
  let lang := treeSitterLanguage (this (heap fr)) in
  let root := rootNode (treeSitterNodeTree (this (heap fr))) in
  let r' := normalizeRule r in
  let calls := drop (length (trace (heap fr))) (trace (heap (fst (evalRule i fr)))) in
  scannerRules (this (heap fr)) !! i = Some r ->
  capturedNodes lang root r' (store (heap fr)) = (s1, Ok []) ->
  scanResultList (fst (evalRule i fr)) =
    scanResultList fr ++
    match measureStep r' [] s1 with
    | (s2, Ok _) =>
        match validateNodes r (fields r') [] s2 with
        | (_, Ok found) => found
        | (_, Throw _) => []
        end
    | (_, Throw _) => []
    end /\
  List.filter isValidateNodeCall calls = [] /\
  List.filter isValidatorCall calls =
    (if includes (ruleContext (fields r)) "measure"
     then match measureNodes r (fields r') [] s1 with
          | (_, Ok _) => [EvCall M_validateNodes i (fields r') []]
          | (_, Throw _) => []
          end
     else [EvCall M_validateNodes i (fields r') []]).
Proof.
  intros lang root r' calls Hi Hcap. unfold calls.
  rewrite (evalRule_trace i r) by done. rewrite (evalRule_run i r) by done.
  fold lang root r'. cbn [fst snd extend heap scanResultList].
  destruct (ruleEvents_after_captures i lang root r' _ _ _ Hcap) as [scope ->].
  unfold ruleFindings, dispatchEvents. rewrite Hcap.
  change (validateNodes r') with (validateNodes r).
  rewrite !List.filter_app, filter_measureEvents.
  assert (Hm : List.filter isValidatorCall (measureEvents i r' []) = []).
  { unfold measureEvents. by destruct (includes _ _). }
  rewrite Hm. cbn [List.filter isValidateNodeCall isValidatorCall app].
  unfold measureStep.
  change (ruleContext (fields r')) with (ruleContext (fields r)).
  change (measureNodes r') with (measureNodes r).
  destruct (includes (ruleContext (fields r)) "measure").
  - destruct (measureNodes r (fields r') [] s1) as [s2 [[]|e]].
    + destruct (validateNodes r (fields r') [] s2) as [s3 [found|e]];
        cbn [snd perNodeFindings perNodeEvents List.filter isValidateNodeCall
             isValidatorCall app];
        rewrite ?app_nil_r; by repeat split.
    + cbn [snd List.filter app]. by repeat split.
  - destruct (validateNodes r (fields r') [] s1) as [s3 [found|e]];
      cbn [snd perNodeFindings perNodeEvents List.filter isValidateNodeCall
           isValidatorCall app];
      rewrite ?app_nil_r; by repeat split.
Qed.

(** X5. When the pre-filter, the query and every callback of a rule return,
    the calls of the iteration are, in this order: the pre-filter on the
    root, the compilation, the execution, [measureNodes] once if the context
    names [measure], [validateNodes] once, and [validateNode] once for each
    captured node in capture order. Nothing is written to the console. *)
Theorem calls_of_a_returning_rule (fr : Frame) (i : nat) (r : ScanRule)
    (s1 s2 s3 : Store) (nodes : list SyntaxNode) (found : list ScanResult) :
  let lang := treeSitterLanguage (this (heap fr)) in
  let root := rootNode (treeSitterNodeTree (this (heap fr))) in
  let r' := normalizeRule r in
  let self := fields r' in
  scannerRules (this (heap fr)) !! i = Some r ->
  capturedNodes lang root r' (store (heap fr)) = (s1, Ok nodes) ->
  measureStep r' nodes s1 = (s2, Ok tt) ->
  validateNodes r self nodes s2 = (s3, Ok found) ->
  perNodeError r' nodes s3 = None ->
  (exists scope,
     drop (length (trace (heap fr))) (trace (heap (fst (evalRule i fr)))) =
     [EvCall M_preFilter i self [root];
      EvQueryNew (composeQuery (fields r));
      EvCaptures (composeQuery (fields r)) scope] ++
     (if includes (ruleContext (fields r)) "measure"
      then [EvCall M_measureNodes i self nodes] else []) ++
     [EvCall M_validateNodes i self nodes] ++
     map (validateNodeCall i self) nodes) /\
  console (heap (fst (evalRule i fr))) = console (heap fr) /\
  scanResultList (fst (evalRule i fr)) =
    scanResultList fr ++ found ++ snd (perNodeFindings r' nodes s3).
Proof.
  intros lang root r' self Hi Hcap Hm Hvns Hnone.
  rewrite (evalRule_trace i r) by done. rewrite (evalRule_run i r) by done.
  fold lang root r'. cbn [fst snd extend heap console scanResultList].
  destruct (ruleEvents_after_captures i lang root r' _ _ _ Hcap) as [scope ->].
  unfold ruleConsole, ruleError, ruleFindings, dispatchEvents. rewrite Hcap, Hm.
  change (validateNodes r') with (validateNodes r). fold self. rewrite Hvns, Hnone.
  rewrite (perNodeEvents_all_return i r' nodes s3 Hnone).
  destruct (perNodeFindings r' nodes s3) as [s4 perNode]. cbn [snd].
  split; [by exists scope|]. split; [by rewrite app_nil_r | reflexivity].
Qed.

(** X6. When [measureNodes] throws, neither validator is called: the rule
    adds nothing to the list, the error goes to the console, and the
    iteration ends normally. *)
Theorem measureNodes_throw_skips_validators (fr : Frame) (i : nat) (r : ScanRule)
    (s1 s2 : Store) (nodes : list SyntaxNode) (e : Exn) :
  let lang := treeSitterLanguage (this (heap fr)) in
  let root := rootNode (treeSitterNodeTree (this (heap fr))) in
  let r' := normalizeRule r in
  scannerRules (this (heap fr)) !! i = Some r ->
  capturedNodes lang root r' (store (heap fr)) = (s1, Ok nodes) ->
  measureStep r' nodes s1 = (s2, Throw e) ->
  snd (evalRule i fr) = Ok tt /\
  scanResultList (fst (evalRule i fr)) = scanResultList fr /\
  console (heap (fst (evalRule i fr))) = console (heap fr) ++ [errorPrefix +:+ e] /\
  List.filter isValidatorCall
    (drop (length (trace (heap fr))) (trace (heap (fst (evalRule i fr))))) = [].
Proof.
  intros lang root r' Hi Hcap Hm.
  rewrite (evalRule_trace i r) by done. rewrite (evalRule_run i r) by done.
  fold lang root r'. cbn [fst snd extend heap console scanResultList].
  destruct (ruleEvents_after_captures i lang root r' _ _ _ Hcap) as [scope ->].
  unfold ruleConsole, ruleError, ruleFindings, dispatchEvents. rewrite Hcap, Hm.
  cbn [snd]. rewrite app_nil_r. repeat split.
  unfold measureEvents. by destruct (includes _ _).
Qed.

(** ** The console, the priorities and [dump] *)



(** X8. After a run no rule has a priority above [VIOLATION], no priority was
    raised, and a priority that did not exceed [VIOLATION] (a negative one
    included: there is no lower bound) is left as it was. *)
Theorem priorities_after_run (st : State) :
  Forall2 (fun r r' =>
             (Priority (fields r') <= VIOLATION)%Z /\
             (Priority (fields r') <= Priority (fields r))%Z /\
             ((Priority (fields r) <= VIOLATION)%Z -> r' = r))
          (scannerRules (this st)) (scannerRules (this (fst (scan st)))).
Proof.
  rewrite scan_eq, commonScan_run. cbn [fst this setRules scannerRules].
  induction (scannerRules (this st)) as [|r rs IH]; [constructor|].
  cbn [map]. constructor; [| exact IH].
  unfold normalizeRule at 1 2. cbn [fields setFields Priority setPriority].
  rewrite normalizePriority_min. split; [lia|]. split; [lia|]. apply normalizeRule_le.
Qed.

(** X9. [dump] has no [try]: an error of the query compiler or of the
    execution is thrown to the caller, and nothing is written to the
    console. *)
Theorem dump_throws_query_errors (queryString : string) (st : State) (e : Exn) :
  (Query_new (treeSitterLanguage (this st)) (dumpQuery queryString) = Throw e \/
   exists query,
     Query_new (treeSitterLanguage (this st)) (dumpQuery queryString) = Ok query /\
     captures query (rootNode (treeSitterNodeTree (this st))) = Throw e) ->
  snd (dump queryString st) = Throw e /\
  console (fst (dump queryString st)) = console st.
Proof.
  unfold dump, bind, newQuery, runCaptures, ret. fold (dumpQuery queryString). cbn.
  intros [Hq | (query & Hq & Hc)]; rewrite Hq; cbn; [done|]. by rewrite Hc.
Qed.

Lemma dump_changes_nothing_aux (queryString : string) (st : State) :
  this (fst (dump queryString st)) = this st /\
  store (fst (dump queryString st)) = store st /\
  console (fst (dump queryString st)) = console st.
Proof.
  unfold dump, bind, newQuery, runCaptures, ret. cbn.
  destruct (Query_new _ _) as [q|e]; [| done]. cbn. by destruct (captures q _).
Qed.

(** X10. [dump] changes nothing but the ghost log: the engine, the store and
    the console are as before, whether it returns or throws. *)
Theorem dump_changes_nothing (queryString : string) (st : State) :
  this (fst (dump queryString st)) = this st /\
  store (fst (dump queryString st)) = store st /\
  console (fst (dump queryString st)) = console st.
Proof. apply dump_changes_nothing_aux. Qed.

(** X17. [dump] and a run do not interfere: a scan started after any [dump],
    returned or thrown, gives the findings, rule objects, store and console
    of a scan started without it. *)
Theorem scan_after_dump (queryString : string) (st : State) :
  snd (scan (fst (dump queryString st))) = snd (scan st) /\
  this (fst (scan (fst (dump queryString st)))) = this (fst (scan st)) /\
  store (fst (scan (fst (dump queryString st)))) = store (fst (scan st)) /\
  console (fst (scan (fst (dump queryString st)))) = console (fst (scan st)).
Proof.
  destruct (dump_changes_nothing_aux queryString st) as (Hthis & Hstore & Hcon).
  rewrite !scan_eq, !commonScan_run. cbn [fst snd this store console].
  by rewrite Hthis, Hstore, Hcon.
Qed.

End MoreProperties.

(** * Properties of ScanManager.js *)

Section LegacyProperties.
Context `{Host} {V : LegacyScan.ViolationHost}.
Import LegacyScan.

(** ** Steps that keep a relation between the frames *)

Section Steps.
Variable R : LFrame -> LFrame -> Prop.
Hypothesis R_refl : forall fr, R fr fr.
Hypothesis R_trans : forall fr1 fr2 fr3, R fr1 fr2 -> R fr2 fr3 -> R fr1 fr3.

Lemma steps_ret {A : Type} (a : A) : steps R (ret a).
Proof. intros fr. apply R_refl. Qed.

Lemma steps_throw {A : Type} (e : Exn) : steps R (throw (A := A) e).
Proof. intros fr. apply R_refl. Qed.

Lemma steps_bind {A B : Type} (m : M LFrame A) (k : A -> M LFrame B) :
  steps R m -> (forall a, steps R (k a)) -> steps R (bind m k).
Proof.
  intros Hm Hk fr. specialize (Hm fr). unfold bind.
  destruct (m fr) as [fr1 [a|e]]; cbn in *; [| exact Hm].
  eapply R_trans; [exact Hm | apply Hk].
Qed.

Lemma steps_try_catch {A : Type} (m : M LFrame A) (h : Exn -> M LFrame A) :
  steps R m -> (forall e, steps R (h e)) -> steps R (try_catch m h).
Proof.
  intros Hm Hh fr. specialize (Hm fr). unfold try_catch.
  destruct (m fr) as [fr1 [a|e]]; cbn in *; [exact Hm|].
  eapply R_trans; [exact Hm | apply Hh].
Qed.

Lemma steps_forEach {A : Type} (xs : list A) (f : A -> M LFrame unit) :
  (forall x, steps R (f x)) -> steps R (forEach xs f).
Proof.
  intros Hf. induction xs as [|x xs IH]; cbn [forEach]; [apply steps_ret|].
  apply steps_bind; [apply Hf | intros _; exact IH].
Qed.

(** The body of the [try] block, given its primitive steps. *)
Lemma steps_tryBody (i : nat) (rule : Rule) (ruleContext queryText : string) :
  steps R (onLHeap (lnewQuery i queryText)) ->
  (forall q scope, steps R (onLHeap (lrunMatches i queryText q scope))) ->
  (forall n, steps R (onLHeap (lvalidate i rule n))) ->
  (forall n, steps R (onLHeap (lnewViolation i rule n))) ->
  (forall v, steps R (pushOnProperty ruleContext v)) ->
  steps R (LegacyScan.tryBody i rule ruleContext queryText).
Proof.
  intros Hq Hm Hv Hn Hp. unfold LegacyScan.tryBody.
  apply steps_bind; [exact Hq | intros q].
  apply steps_bind; [intros fr; apply R_refl | intros root].
  apply steps_bind; [apply Hm | intros found].
  apply steps_forEach. intros m. apply steps_forEach. intros capture. unfold checkCapture.
  apply steps_bind; [apply Hv | intros isValid].
  destruct (negb isValid); [| apply steps_ret].
  apply steps_bind; [apply Hn | intros v; apply Hp].
Qed.

End Steps.

(** ** The result map *)

Lemma keepsMap_refl (fr : LFrame) : keepsMap fr fr.
Proof. by intros _. Qed.

Lemma keepsMap_trans (fr1 fr2 fr3 : LFrame) :
  keepsMap fr1 fr2 -> keepsMap fr2 fr3 -> keepsMap fr1 fr3.
Proof.
  unfold keepsMap. intros H12 H23 Hnil. rewrite <- (H12 Hnil). apply H23.
  by rewrite (H12 Hnil).
Qed.

Lemma onLHeap_resultMap {A : Type} (m : M LState A) (fr : LFrame) :
  resultMap (fst (onLHeap m fr)) = resultMap fr.
Proof. unfold onLHeap, zoom. by destruct (m (lheap fr)). Qed.

Lemma keepsMap_onLHeap {A : Type} (m : M LState A) : steps keepsMap (onLHeap m).
Proof. intros fr _. apply onLHeap_resultMap. Qed.

(** With no own property on the object, the push throws and changes nothing. *)
Lemma pushOnProperty_throws (key : string) (v : Violation) (fr : LFrame) :
  properties (resultMap fr) = [] ->
  pushOnProperty key v fr = (fr, Throw (TypeError ("resultMap[" +:+ key +:+ "].push"))).
Proof. intros Hnil. unfold pushOnProperty. by rewrite Hnil. Qed.

Lemma keepsMap_pushOnProperty (key : string) (v : Violation) :
  steps keepsMap (pushOnProperty key v).
Proof. intros fr Hnil. by rewrite pushOnProperty_throws. Qed.

Lemma keepsMap_guarded (context : string) (i : nat) (rule : Rule) (ruleContext : string) :
  steps keepsMap
    (try_catch (LegacyScan.tryBody i rule ruleContext (Legacy.composeQuery (rfields rule)))
               LegacyScan.catchClause).
Proof.
  apply (steps_try_catch keepsMap keepsMap_trans).
  - apply (steps_tryBody keepsMap keepsMap_refl keepsMap_trans);
      intros; first [apply keepsMap_onLHeap | apply keepsMap_pushOnProperty].
  - intros e. apply keepsMap_onLHeap.
Qed.

(** What an iteration does to the map: it makes sure that the category of
    the rule has an entry, and nothing else. *)
Lemma scanRule_resultMap (context : string) (i : nat) (rule : Rule) (fr : LFrame) :
  properties (resultMap fr) = [] ->
  resultMap (fst (scanRule context i rule fr)) =
  ensured (Category (rfields rule)) (resultMap fr).
Proof.
  intros Hnil. unfold scanRule. rewrite bind_eq. unfold ensureCategory, modify.
  set (fr1 := if Map_has (resultMap fr) (Category (rfields rule)) then fr else _).
  assert (Hfr1 : resultMap fr1 = ensured (Category (rfields rule)) (resultMap fr)).
  { unfold fr1, ensured. by destruct (Map_has _ _). }
  assert (Hnil1 : properties (resultMap fr1) = []).
  { rewrite Hfr1. unfold ensured. by destruct (Map_has _ _). }
  rewrite <- Hfr1. destruct (Context (rfields rule)) as [ruleContext|]; [| reflexivity].
  destruct (negb (includes ruleContext context)); [reflexivity|].
  by apply (keepsMap_guarded context).
Qed.

Lemma Map_has_false (m : JSMap) (key : string) :
  Map_has m key = false -> ~ In key (keys m).
Proof.
  unfold Map_has, keys. induction (entries m) as [|[k v] kvs IH]; cbn; [tauto|].
  destruct (String.eqb_spec k key) as [->|Hne]; cbn; [discriminate|].
  intros Hrest [Heq|Hin]; [done | by apply IH].
Qed.

Lemma Map_has_true (m : JSMap) (key : string) :
  Map_has m key = true -> In key (keys m).
Proof.
  unfold Map_has, keys. induction (entries m) as [|[k v] kvs IH]; cbn; [discriminate|].
  destruct (String.eqb_spec k key) as [->|Hne]; cbn; [by left|]. intros Hrest. right.
  by apply IH.
Qed.

Lemma setEntry_fresh (key : string) (value : list Violation)
    (kvs : list (string * list Violation)) :
  ~ In key (map fst kvs) -> setEntry key value kvs = kvs ++ [(key, value)].
Proof.
  induction kvs as [|[k v] rest IH]; cbn; [done|]. intros Hnot.
  destruct (String.eqb_spec k key) as [->|Hne]; [tauto|]. rewrite IH; [done | tauto].
Qed.

Lemma ensured_emptyMap (category : string) (m : JSMap) :
  emptyMap m ->
  emptyMap (ensured category m) /\
  forall key, In key (keys (ensured category m)) <-> In key (keys m) \/ key = category.
Proof.
  intros (Hp & Hv & Hk). unfold ensured.
  destruct (Map_has m category) eqn:Hhas.
  - split; [done|]. intros key. split; [tauto|]. intros [Hin| ->]; [done|].
    by apply Map_has_true.
  - apply Map_has_false in Hhas. unfold emptyMap, Map_set, keys in *. cbn.
    rewrite setEntry_fresh by done. rewrite map_app. cbn. split.
    + split; [done|]. split.
      * apply Forall_app. split; [done|]. by constructor.
      * apply NoDup_app. split; [done|]. split; [| apply NoDup_singleton].
        intros x Hx Hin. apply list_elem_of_In in Hx. apply list_elem_of_In in Hin.
        destruct Hin as [<-|[]]. done.
    + intros key. rewrite in_app_iff. cbn. intuition congruence.
Qed.

Lemma forRules_resultMap (context : string) (rules : list Rule) :
  forall (i : nat) (fr : LFrame),
    emptyMap (resultMap fr) ->
    snd (forRules context i rules fr) = Ok tt ->
    emptyMap (resultMap (fst (forRules context i rules fr))) /\
    forall key,
      In key (keys (resultMap (fst (forRules context i rules fr)))) <->
      In key (keys (resultMap fr)) \/ In key (map (fun r => Category (rfields r)) rules).
Proof.
  induction rules as [|rule rest IH]; intros i fr Hinv Hok.
  - cbn. split; [done | tauto].
  - cbn [forRules] in *. rewrite bind_eq in *.
    pose proof (scanRule_resultMap context i rule fr (proj1 Hinv)) as Hmap.
    destruct (scanRule context i rule fr) as [fr1 [[]|e]]; cbn [fst snd] in *;
      [| discriminate].
    destruct (ensured_emptyMap (Category (rfields rule)) _ Hinv) as [Hinv1 Hkeys1].
    rewrite <- Hmap in Hinv1, Hkeys1.
    destruct (IH (S i) fr1 Hinv1 Hok) as [Hinv2 Hkeys2]. split; [done|].
    intros key. rewrite Hkeys2, Hkeys1. cbn. intuition congruence.
Qed.

(** X12. The older scan never reports a violation. Whenever [_scan]
    returns, the map it returns has exactly one entry for each category of
    the rule list, whether or not the rule names the requested context, and
    every entry holds the empty array: the push indexes the map object as if
    it were a record, which throws and is caught as a query error. *)
Theorem legacy_scan_reports_no_violation (context : string) (st : LState)
    (rules : list Rule) (m : JSMap) :
  _rules (lthis st) = Some rules ->
  snd (_scan context st) = Ok m ->
  Forall (fun kv => snd kv = []) (entries m) /\
  properties m = [] /\
  NoDup (keys m) /\
  (forall key, In key (keys m) <-> In key (map (fun r => Category (rfields r)) rules)).
Proof.
  intros Hrules. unfold _scan. rewrite Hrules.
  set (fr0 := {| lheap := st; resultMap := Map_new |}).
  assert (Hinv0 : emptyMap (resultMap fr0)).
  { split; [done|]. split; [constructor | apply NoDup_nil_2]. }
  pose proof (forRules_resultMap context rules 0 fr0 Hinv0) as Hloop.
  destruct (forRules context 0 rules fr0) as [fr [[]|e]]; cbn [fst snd] in *;
    [| discriminate].
  intros Heq. inversion Heq; subst m.
  destruct (Hloop eq_refl) as [(Hp & Hv & Hk) Hkeys]. repeat split; try done.
  - intros Hin. apply Hkeys in Hin as [[]|Hin]. done.
  - intros Hin. apply Hkeys. by right.
Qed.

(** ** When the older scan throws *)

Lemma catchClause_returns (e : Exn) (fr : LFrame) :
  snd (LegacyScan.catchClause e fr) = Ok tt.
Proof. reflexivity. Qed.

Lemma scanRule_outcome (context : string) (i : nat) (rule : Rule) (fr : LFrame) :
  snd (scanRule context i rule fr) =
  match Context (rfields rule) with
  | Some _ => Ok tt
  | None => Throw (TypeError "rule.Context.includes")
  end.
Proof.
  unfold scanRule. rewrite bind_eq. unfold ensureCategory, modify.
  destruct (Context (rfields rule)) as [ruleContext|]; [| reflexivity].
  destruct (negb (includes ruleContext context)); [reflexivity|].
  unfold try_catch. destruct (LegacyScan.tryBody _ _ _ _ _) as [fr2 [[]|e]]; reflexivity.
Qed.

Lemma forRules_outcome (context : string) (rules : list Rule) :
  forall (i : nat) (fr : LFrame),
    snd (forRules context i rules fr) =
    if existsb (fun r => negb (bool_decide (is_Some (Context (rfields r))))) rules
    then Throw (TypeError "rule.Context.includes")
    else Ok tt.
Proof.
  induction rules as [|rule rest IH]; intros i fr; [reflexivity|].
  cbn [forRules existsb]. rewrite bind_eq.
  pose proof (scanRule_outcome context i rule fr) as Hout.
  destruct (scanRule context i rule fr) as [fr1 [[]|e]]; cbn [snd] in Hout.
  - destruct (Context (rfields rule)); [| discriminate]. cbn. apply IH.
  - destruct (Context (rfields rule)); [discriminate|]. cbn. by inversion Hout.
Qed.

(** X13. The older scan throws in exactly two cases: the rule list is
    [null] (the test for it has an empty body), or some rule has no
    [Context], which is read outside the [try] block. In every other case it
    returns a map, whatever the query compiler, [validate] or the
    [Violation] constructor throw. *)
Theorem legacy_scan_throws_iff (context : string) (st : LState) :
  (exists e, snd (_scan context st) = Throw e) <->
  (_rules (lthis st) = None \/
   exists rules,
     _rules (lthis st) = Some rules /\
     Exists (fun r => Context (rfields r) = None) rules).
Proof.
  unfold _scan. destruct (_rules (lthis st)) as [rules|].
  2:{ split; [by left | intros _; eauto]. }
  pose proof (forRules_outcome context rules 0 {| lheap := st; resultMap := Map_new |})
    as Hout.
  destruct (forRules context 0 rules _) as [fr [[]|e]]; cbn [snd] in *.
  - destruct (existsb _ rules) eqn:Hex; [discriminate|]. split.
    + intros [e He]. discriminate.
    + intros [Hnone | (rules' & Heq & Hexists)]; [discriminate|].
      inversion Heq; subst rules'. exfalso.
      apply List.Exists_exists in Hexists as (r & Hin & Hctx).
      assert (Htrue : existsb (fun r => negb (bool_decide (is_Some (Context (rfields r)))))
                        rules = true).
      { apply existsb_exists. exists r. split; [done|]. rewrite Hctx.
        apply negb_true_iff, bool_decide_eq_false. by intros [x Hx]. }
      congruence.
  - split; [| eauto]. intros _. right. exists rules. split; [done|].
    destruct (existsb _ rules) eqn:Hex; [| discriminate].
    apply existsb_exists in Hex as (r & Hin & Hr). apply List.Exists_exists.
    exists r. split; [done|]. destruct (Context (rfields r)); [| done].
    apply negb_true_iff, bool_decide_eq_false in Hr. exfalso. apply Hr. eauto.
Qed.

(** ** Which rules the older scan evaluates *)

Lemma logsOnly_refl (P : LEvent -> Prop) (fr : LFrame) : logsOnly P fr fr.
Proof. exists []. by rewrite app_nil_r. Qed.

Lemma logsOnly_trans (P : LEvent -> Prop) (fr1 fr2 fr3 : LFrame) :
  logsOnly P fr1 fr2 -> logsOnly P fr2 fr3 -> logsOnly P fr1 fr3.
Proof.
  intros (evs1 & Ht1 & Hall1) (evs2 & Ht2 & Hall2). exists (evs1 ++ evs2).
  rewrite Ht2, Ht1, app_assoc. split; [done|]. by apply Forall_app.
Qed.

Lemma logsOnly_mono (P Q : LEvent -> Prop) (fr fr' : LFrame) :
  (forall e, P e -> Q e) -> logsOnly P fr fr' -> logsOnly Q fr fr'.
Proof.
  intros HPQ (evs & Ht & Hall). exists evs. split; [done|].
  eapply Forall_impl; [exact Hall | exact HPQ].
Qed.

Lemma logsOnly_same_trace (P : LEvent -> Prop) (fr fr' : LFrame) :
  ltrace (lheap fr') = ltrace (lheap fr) -> logsOnly P fr fr'.
Proof. intros Heq. exists []. by rewrite app_nil_r. Qed.

Lemma logsOnly_one (P : LEvent -> Prop) (e : LEvent) (fr fr' : LFrame) :
  P e -> ltrace (lheap fr') = ltrace (lheap fr) ++ [e] -> logsOnly P fr fr'.
Proof. intros HP Heq. exists [e]. split; [done|]. by constructor. Qed.

Lemma scanRule_logs (context : string) (i : nat) (rule : Rule) (P : LEvent -> Prop) :
  (forall e ruleContext,
     eventIndex e = i -> Context (rfields rule) = Some ruleContext ->
     includes ruleContext context = true -> P e) ->
  steps (logsOnly P) (scanRule context i rule).
Proof.
  intros HP. unfold scanRule.
  apply (steps_bind _ (logsOnly_trans P)).
  { intros fr. apply logsOnly_same_trace. unfold ensureCategory, modify. cbn.
    by destruct (Map_has _ _). }
  intros _. destruct (Context (rfields rule)) as [ruleContext|] eqn:Hctx;
    [| apply (steps_throw _ (logsOnly_refl P))].
  destruct (includes ruleContext context) eqn:Hinc; cbn [negb];
    [| apply (steps_ret _ (logsOnly_refl P))].
  assert (Hi : forall e, eventIndex e = i -> P e) by (intros e He; by eapply HP).
  apply (steps_try_catch _ (logsOnly_trans P)).
  - apply (steps_tryBody _ (logsOnly_refl P) (logsOnly_trans P)).
    + intros fr. eapply logsOnly_one; [| reflexivity]. by apply Hi.
    + intros q scope fr. eapply logsOnly_one; [| reflexivity]. by apply Hi.
    + intros n fr. eapply (logsOnly_one _ (LValidate i (rfields rule) n)); [by apply Hi|].
      unfold onLHeap, zoom, lvalidate. by destruct (validate _ _ _ _).
    + intros n fr. eapply (logsOnly_one _ (LViolationNew i n)); [by apply Hi|].
      unfold onLHeap, zoom, lnewViolation. by destruct (Violation_new _ _ _ _).
    + intros v fr. apply logsOnly_same_trace. unfold pushOnProperty.
      by destruct (lookupProperty _ _).
  - intros e fr. by apply logsOnly_same_trace.
Qed.

Lemma forRules_logs (context : string) (rules : list Rule) :
  forall (k : nat) (P : LEvent -> Prop),
    (forall e j rule ruleContext,
       eventIndex e = k + j -> rules !! j = Some rule ->
       Context (rfields rule) = Some ruleContext ->
       includes ruleContext context = true -> P e) ->
    steps (logsOnly P) (forRules context k rules).
Proof.
  induction rules as [|rule rest IH]; intros k P HP; cbn [forRules].
  - apply (steps_ret _ (logsOnly_refl P)).
  - apply (steps_bind _ (logsOnly_trans P)).
    + apply scanRule_logs. intros e ruleContext He Hctx Hinc.
      apply (HP e 0 rule ruleContext); [lia | done..].
    + intros _. apply IH. intros e j r ruleContext He Hj Hctx Hinc.
      apply (HP e (S j) r ruleContext); [lia | done..].
Qed.

(** X14. The older scan evaluates a rule only when its [Context] contains
    the requested context: every query compilation, query execution, call of
    [validate] and construction of a [Violation] during [_scan] belongs to
    such a rule. *)
Theorem legacy_scan_gates_rules_by_context (context : string) (st : LState)
    (rules : list Rule) :
  _rules (lthis st) = Some rules ->
  exists evs,
    ltrace (fst (_scan context st)) = ltrace st ++ evs /\
    Forall (inContext context rules) evs.
Proof.
  intros Hrules. unfold _scan. rewrite Hrules.
  assert (Hlogs : steps (logsOnly (inContext context rules)) (forRules context 0 rules)).
  { apply forRules_logs. intros e j rule ruleContext He Hj Hctx Hinc.
    exists rule, ruleContext. by rewrite He. }
  specialize (Hlogs {| lheap := st; resultMap := Map_new |}).
  by destruct (forRules context 0 rules _) as [fr [[]|e]].
Qed.

(** ** A rule with an invalid capture *)

Lemma forEach_app {S A : Type} (xs ys : list A) (f : A -> M S unit) (s : S) :
  forEach (xs ++ ys) f s = bind (forEach xs f) (fun _ => forEach ys f) s.
Proof.
  revert s. induction xs as [|x xs IH]; intros s; [reflexivity|].
  cbn [app forEach]. rewrite !bind_eq. destruct (f x s) as [s1 [[]|e]]; [| reflexivity].
  by rewrite IH, bind_eq.
Qed.

(** A loop inside a loop is one loop over the concatenation. *)
Lemma forEach_flat_map {S A B : Type} (g : A -> list B) (xss : list A)
    (f : B -> M S unit) (s : S) :
  forEach xss (fun xs => forEach (g xs) f) s = forEach (flat_map g xss) f s.
Proof.
  revert s. induction xss as [|xs xss IH]; intros s; [reflexivity|].
  cbn [forEach flat_map]. rewrite forEach_app, !bind_eq.
  destruct (forEach (g xs) f s) as [s1 [[]|e]]; [apply IH | reflexivity].
Qed.

Lemma lextend_id (fr : LFrame) : lextend fr (lstore (lheap fr)) [] [] = fr.
Proof. destruct fr as [[m s c t] rm]. unfold lextend. cbn. by rewrite !app_nil_r. Qed.

Lemma forEach_valid_captures (i : nat) (rule : Rule) (ruleContext : string)
    (caps : list QueryCapture) :
  forall (fr : LFrame) (s1 : Store),
    validAll rule (map node caps) (lstore (lheap fr)) = Some s1 ->
    forEach caps (checkCapture i rule ruleContext) fr =
    (lextend fr s1 [] (map (fun c => LValidate i (rfields rule) (node c)) caps), Ok tt).
Proof.
  induction caps as [|c cs IH]; intros fr s1 Hvalid.
  - cbn in *. inversion Hvalid; subst. unfold ret. by rewrite lextend_id.
  - cbn [map validAll forEach] in *. rewrite bind_eq. unfold checkCapture at 1.
    rewrite bind_eq. unfold onLHeap at 1, zoom, lvalidate.
    destruct (validate rule (rfields rule) (node c) (lstore (lheap fr)))
      as [s0 [[|]|e]]; try discriminate.
    cbn [negb]. unfold ret. rewrite (IH _ s1) by exact Hvalid.
    unfold lextend. cbn. by rewrite <- !app_assoc.
Qed.

(** X15. In the older scan, when [validate] finds a capture invalid, no
    violation is recorded: the push throws (or the constructor before it),
    the error is printed as a query error, and the captures after it are
    never validated. The calls of the iteration are the compilation, the
    execution, [validate] for the captures up to the invalid one, and the
    constructor once. *)
Theorem legacy_invalid_capture_stops_rule (context : string) (i : nat) (rule : Rule)
    (fr : LFrame) (ruleContext : string) (q : TreeSitter.Query) (found : list QueryMatch)
    (before after : list QueryCapture) (c : QueryCapture) (s1 s2 : Store) :
  let self := rfields rule in
  let root := rootNode (_nodeTree (lthis (lheap fr))) in
  let queryText := Legacy.composeQuery self in
  let made := Violation_new (node c) rule (_sourcePath (lthis (lheap fr))) s2 in
  let error :=
    match snd made with
    | Ok _ => TypeError ("resultMap[" +:+ ruleContext +:+ "].push")
    | Throw e => e
    end in
  properties (resultMap fr) = [] ->
  Context self = Some ruleContext ->
  includes ruleContext context = true ->
  Query_new (_language (lthis (lheap fr))) queryText = Ok q ->
  matches q root = Ok found ->
  flat_map captures_of found = before ++ c :: after ->
  validAll rule (map node before) (lstore (lheap fr)) = Some s1 ->
  validate rule self (node c) s1 = (s2, Ok false) ->
  snd (scanRule context i rule fr) = Ok tt /\
  resultMap (fst (scanRule context i rule fr)) = ensured (Category self) (resultMap fr) /\
  lconsole (lheap (fst (scanRule context i rule fr))) =
    lconsole (lheap fr) ++ ["A tree-sitter query error occurred: " +:+ error] /\
  ltrace (lheap (fst (scanRule context i rule fr))) =
    ltrace (lheap fr) ++
    [LQueryNew i queryText; LMatches i queryText root] ++
    map (fun b => LValidate i self (node b)) (before ++ [c]) ++
    [LViolationNew i (node c)].
Proof.
  intros self root queryText made error Hnil Hctx Hinc Hq Hm Hflat Hvalid Hc.
  split; [by rewrite scanRule_outcome; fold self; rewrite Hctx|].
  split; [by apply scanRule_resultMap|].
  assert (Hrun : exists fr',
    scanRule context i rule fr = (fr', Ok tt) /\
    lconsole (lheap fr') =
      lconsole (lheap fr) ++ ["A tree-sitter query error occurred: " +:+ error] /\
    ltrace (lheap fr') =
      ltrace (lheap fr) ++
      [LQueryNew i queryText; LMatches i queryText root] ++
      map (fun b => LValidate i self (node b)) (before ++ [c]) ++
      [LViolationNew i (node c)]).
  2:{ destruct Hrun as (fr' & -> & Hcon & Htr). by cbn [fst]. }
  unfold scanRule. rewrite bind_eq. unfold ensureCategory, modify. fold self.
  rewrite Hctx, Hinc. cbn [negb].
  set (fr1 := if Map_has (resultMap fr) (Category self) then fr else _).
  assert (Hheap : lheap fr1 = lheap fr) by (unfold fr1; by destruct (Map_has _ _)).
  assert (Hnil1 : properties (resultMap fr1) = []) by (unfold fr1; by destruct (Map_has _ _)).
  clearbody fr1. unfold try_catch, LegacyScan.tryBody. fold queryText.
  rewrite bind_eq. unfold onLHeap at 1, zoom, lnewQuery. rewrite Hheap, Hq.
  rewrite bind_eq. cbn [lheap lthis logged]. fold root.
  rewrite bind_eq. unfold onLHeap at 1, zoom, lrunMatches. cbn [lheap]. rewrite Hm.
  rewrite (forEach_flat_map captures_of found (checkCapture i rule ruleContext)).
  rewrite Hflat, forEach_app, bind_eq.
  rewrite (forEach_valid_captures i rule ruleContext before _ s1) by (cbn; exact Hvalid).
  cbn [forEach]. rewrite bind_eq. unfold checkCapture at 1. rewrite bind_eq.
  unfold onLHeap at 1, zoom, lvalidate. cbn [lextend lheap lstore lthis]. fold self.
  rewrite Hc. cbn [negb]. rewrite bind_eq.
  unfold onLHeap at 1, zoom, lnewViolation. cbn [lheap lstore lthis logged].
  subst error made.
  destruct (Violation_new (node c) rule (_sourcePath (lthis (lheap fr))) s2)
    as [s3 [v|e]]; cbn [snd].
  - rewrite pushOnProperty_throws by exact Hnil1. eexists. split; [reflexivity|].
    cbn. rewrite map_app, <- !app_assoc. by cbn.
  - eexists. split; [reflexivity|]. cbn. rewrite map_app, <- !app_assoc. by cbn.
Qed.

(** ** The older [dump] and its records *)

(** X11. The older [dump] returns nothing: for a query that compiles and
    runs it prints one line, the serialised list of one record of fragment
    and offsets for each capture of each match, in match order, and leaves
    the engine and the store as they were. *)
Theorem legacy_dump_prints_and_returns_nothing (queryString : string) (st : State)
    (query : TreeSitter.Query) (found : list QueryMatch) :
  Query_new (treeSitterLanguage (this st)) (dumpQuery queryString) = Ok query ->
  matches query (rootNode (treeSitterNodeTree (this st))) = Ok found ->
  snd (Legacy.dump queryString st) = Ok tt /\
  console (fst (Legacy.dump queryString st)) =
    console st ++
    [Legacy.JSON_stringify_DumpResults
       (map (fun capture => Legacy.DumpResult_new (node capture) (sourceCodeToScan (this st)))
            (flat_map captures_of found))] /\
  this (fst (Legacy.dump queryString st)) = this st /\
  store (fst (Legacy.dump queryString st)) = store st.
Proof.
  intros Hq Hm.
  destruct (Legacy_dump_prints_records queryString st query found Hq Hm) as [Hret Hcon].
  split; [exact Hret|]. split; [exact Hcon|].
  unfold Legacy.dump, bind, newQuery, runMatches, console_write, modify.
  fold (dumpQuery queryString). cbn. rewrite Hq. cbn. by rewrite Hm.
Qed.

Lemma substring_length (s : string) :
  forall a m, String.length (String.substring a m s) = Nat.min m (String.length s - a).
Proof.
  induction s as [|c s IH]; intros a m.
  - by destruct a, m.
  - destruct a as [|a]; cbn [String.substring String.length].
    + destruct m as [|m]; [reflexivity|]. cbn [String.length]. rewrite IH. lia.
    + rewrite IH. reflexivity.
Qed.

(** X16. A [DumpResult] keeps the offsets of the node as they are, and its
    fragment never reaches beyond the source: offsets past the end are cut
    (no error), so the fragment is at most as long as the source, and it has
    [endIndex - startIndex] code units exactly when the offsets are in order
    and within the source. *)
Theorem DumpResult_fragment_bounds (n : SyntaxNode) (source : string) :
  let d := Legacy.DumpResult_new n source in
  Legacy.StartIndex d = startIndex n /\
  Legacy.EndIndex d = endIndex n /\
  String.length (Legacy.SourceFragment d) <= String.length source /\
  String.length (Legacy.SourceFragment d) <=
    Nat.max (startIndex n) (endIndex n) - Nat.min (startIndex n) (endIndex n) /\
  (startIndex n <= endIndex n <= String.length source ->
   String.length (Legacy.SourceFragment d) = endIndex n - startIndex n).
Proof.
  cbv zeta. unfold Legacy.DumpResult_new, js_substring. cbn [Legacy.StartIndex
    Legacy.EndIndex Legacy.SourceFragment]. rewrite substring_length.
  split; [reflexivity|]. split; [reflexivity|]. repeat split; lia.
Qed.

End LegacyProperties.

(** * The claims on the sample host *)

Section Examples.
Import Fixture.
#[local] Existing Instance Fixture.host.

(** ** Concrete runs *)

Example includes_cases :
  includes "scan,measure" "measure" = true /\ includes "scan" "measure" = false /\
  includes "measure" "scan" = false /\ includes "scan" EmptyString = true.
Proof. repeat split. Qed.

Example js_substring_cases :
  js_substring source 14 15 = "x" /\ js_substring "abc" 2 1 = "b" /\
  js_substring "abc" 1 10 = "bc" /\ js_substring "abc" 7 9 = EmptyString.
Proof. repeat split. Qed.

Example json_string_cases :
  json_string "a b" = dquote +:+ "a b" +:+ dquote /\
  json_string ("a" +:+ dquote) = dquote +:+ "a" +:+ backslash +:+ dquote +:+ dquote /\
  json_string (String "010"%char EmptyString) = dquote +:+ backslash +:+ "n" +:+ dquote /\
  json_string (String "001"%char EmptyString) = dquote +:+ backslash +:+ "u0001" +:+ dquote /\
  json_number 0 = "0" /\ json_number 32 = "32".
Proof. repeat split. Qed.

(** The text of every node of the sample tree is the source between its
    offsets. *)
Example sample_nodes_are_fragments :
  Forall (fun n => text n = js_substring source (startIndex n) (endIndex n))
         [program; classA; idX; idLongName].
Proof. repeat constructor. Qed.

Example composeQuery_cases :
  composeQuery (fields shortNames) = varQuery /\
  composeQuery (fields longOnes) = longQuery /\
  composeQuery (fields emptyRegEx) = varQuery /\
  Legacy.composeQuery (fields emptyRegEx) = varQuery +:+ matchConstraint EmptyString.
Proof. repeat split. Qed.

(** A run over the sample rules: the malformed rule adds nothing, and the
    rule whose per-node validator throws on the second node keeps what it
    had pushed. *)
Example sample_scan :
  snd (scan (initial sampleRules)) =
    Ok ["Length < 3: x"; "Total: x"; "Empty RegEx: x"; "bulk"; "x seen"] /\
  console (fst (scan (initial sampleRules))) =
    ["A tree-sitter query error occurred: TSQueryErrorSyntax";
     "A tree-sitter query error occurred: TypeError"] /\
  store (fst (scan (initial sampleRules))) = 2 /\
  map (fun r => Priority (fields r)) (scannerRules (this (fst (scan (initial sampleRules))))) =
    [2; 3; 1; 1; 3; 0]%Z.
Proof. repeat split. Qed.

(** Rules whose priorities are within range are left as they were. *)
Example sample_low_priorities_unchanged :
  this (fst (scan (initial [shortNames; longOnes]))) = this (initial [shortNames; longOnes]).
Proof. reflexivity. Qed.

Example sample_dump_malformed :
  snd (dump "((" (initial [])) = Throw "TSQueryErrorSyntax".
Proof. reflexivity. Qed.

(** The pattern [dump] runs for the empty string is not in the sample
    grammar; with the capture after the parentheses it is. *)
Example sample_dump_default_pattern :
  dumpQuery EmptyString = declQuery /\
  snd (dump EmptyString (initial [])) = Throw "TSQueryErrorSyntax" /\
  snd (dump classQuery (initial [])) =
    Ok (JSON_stringify_strings ["@decl=class A { int x; int longName; }"]).
Proof. repeat split. Qed.

Lemma mkRule_repeatable (f : RuleFields) : repeatableRule (mkRule f).
Proof. unfold repeatableRule, pureValidators, pureCallback, storeIndependent. cbn. tauto. Qed.

Lemma fragile_repeatable : repeatableRule fragile.
Proof.
  unfold repeatableRule, pureValidators, pureCallback, storeIndependent. cbn.
  repeat split; try reflexivity; intros; by destruct (String.eqb _ _).
Qed.

Lemma sampleRules_repeatable : Forall repeatableRule sampleRules.
Proof.
  unfold sampleRules.
  repeat (apply List.Forall_cons;
          [first [apply mkRule_repeatable | apply fragile_repeatable] |]).
  apply List.Forall_nil.
Qed.

Lemma mkRule_neverThrows (f : RuleFields) : neverThrows (validateNode (mkRule f)).
Proof. intros self n s. eexists. reflexivity. Qed.

Lemma pure_validators_of (r : ScanRule) :
  validateNodes r = noBulkFindings -> validateNode r = flagShortName -> pureValidators r.
Proof.
  intros Hvns Hvn. unfold pureValidators, pureCallback, storeIndependent.
  rewrite Hvns, Hvn. cbn. tauto.
Qed.

(** C1 on a rule set that starts with a rule whose query is malformed: the
    run returns the findings of the rule after it. *)
Lemma scan_never_throws_witness :
  snd (scan (initial [malformed; shortNames])) = Ok ["Length < 3: x"] /\
  snd (scan (initial [malformed])) = Ok [] /\
  snd (scan (initial [])) = Ok [].
Proof.
  split; [| split].
  - exact (proj1 (proj2 (scan_never_throws (initial [malformed; shortNames])))
             [] [shortNames] malformed 0 "TSQueryErrorSyntax" eq_refl eq_refl).
  - apply (proj2 (proj2 (scan_never_throws (initial [malformed])))).
    repeat constructor. by exists "TSQueryErrorSyntax".
  - apply (proj2 (proj2 (scan_never_throws (initial [])))). constructor.
Defined.

(** C2 on the rule that declares priority 16452. *)
Lemma effective_priority_is_min_witness :
  scannerRules (this (initial sampleRules)) !! 1 = Some totalVariables /\
  normalizePriority 16452 = 3%Z /\
  (forall m self args,
     In (EvCall m 1 self args) (callsDuring scan (initial sampleRules)) ->
     Priority self = 3%Z).
Proof.
  split; [reflexivity|].
  destruct (effective_priority_is_min (initial sampleRules) 1 totalVariables eq_refl)
    as (Hp & _ & _ & Hcalls).
  split; [exact Hp|]. intros m self args Hin. by rewrite (Hcalls m self args Hin).
Defined.

(** C3, the claim as stated fails: [scan] calls [measureNodes] of a rule
    whose context is [measure]. *)
Lemma measureNodes_called_during_scan :
  In (EvCall M_measureNodes 0 (setPriority (fields totalVariables) 3) [idX; idLongName])
     (callsDuring scan (initial [totalVariables])).
Proof. vm_compute. do 3 right. left. reflexivity. Defined.

(** C5, the claim as stated fails: [scan] rewrites the priority of a rule
    declared above [VIOLATION]. *)
Lemma scan_rewrites_priority :
  map (fun r => Priority (fields r)) (scannerRules (this (initial [totalVariables]))) =
    [16452%Z] /\
  map (fun r => Priority (fields r))
      (scannerRules (this (fst (scan (initial [totalVariables]))))) = [3%Z].
Proof. split; reflexivity. Qed.

(** C4, the claim as stated fails: the first rule is not successful (its
    per-node validator throws on [x], and the error is logged), yet what it
    had appended is in the list returned, before the findings of the second
    rule, which is successful. *)
Lemma failed_rule_keeps_findings :
  successful Fixture3.grammar3 Fixture3.program3 (normalizeRule Fixture3.throwsOnX) 0 = false /\
  successful Fixture3.grammar3 Fixture3.program3 (normalizeRule Fixture3.needsClass) 0 = true /\
  snd (scan (Fixture3.initial3 [Fixture3.throwsOnX; Fixture3.needsClass])) =
    Ok ["bulk"; "seen longName"; "Needs a class: none"] /\
  console (fst (scan (Fixture3.initial3 [Fixture3.throwsOnX; Fixture3.needsClass]))) =
    ["A tree-sitter query error occurred: TypeError: x"] /\
  claimedFindings Fixture3.grammar3 Fixture3.program3
    [Fixture3.throwsOnX; Fixture3.needsClass] 0 = ["Needs a class: none"] /\
  snd (scan (Fixture3.initial3 [Fixture3.throwsOnX; Fixture3.needsClass])) <>
    Ok (claimedFindings Fixture3.grammar3 Fixture3.program3
          [Fixture3.throwsOnX; Fixture3.needsClass] 0).
Proof. do 5 (split; [reflexivity|]). vm_compute. discriminate. Qed.

(** C4 (amended) on rules whose per-node validator never throws: the list
    returned is that of the successful rules; the malformed rule adds
    nothing. *)
Lemma findings_in_rule_and_capture_order_witness :
  snd (scan (initial [shortNames; malformed; totalVariables])) =
    Ok (claimedFindings grammar program [shortNames; malformed; totalVariables] 0) /\
  claimedFindings grammar program [shortNames; malformed; totalVariables] 0 =
    ["Length < 3: x"; "Total: x"].
Proof.
  split; [| reflexivity].
  apply (proj2 (proj2 (proj2 (proj2 (proj2 (proj2
           (findings_in_rule_and_capture_order
              (initial [shortNames; malformed; totalVariables])))))))).
  repeat (apply List.Forall_cons; [apply mkRule_neverThrows |]). apply List.Forall_nil.
Defined.

(** C6, the claim as stated fails: for the query on the declared variables
    the value returned is not the serialised list of fragment and offset
    records. *)
Lemma dump_is_not_offset_records :
  match Query_new grammar (dumpQuery varQuery) with
  | Ok q => captures q program = Ok [xCapture; longNameCapture]
  | Throw _ => False
  end /\
  snd (dump varQuery (initial [])) =
    Ok (json_array [json_string "@exp=x"; json_string "@exp=longName"]) /\
  snd (dump varQuery (initial [])) <> Ok (dumpSpec source [xCapture; longNameCapture]).
Proof. split; [reflexivity|]. split; [reflexivity|]. vm_compute. discriminate. Qed.

(** C6 (amended) on the query on the declared variables. *)
Lemma dump_returns_capture_texts_witness :
  snd (dump varQuery (initial [])) =
  Ok (JSON_stringify_strings ["@exp=x"; "@exp=longName"]).
Proof.
  refine (proj1 (dump_returns_capture_texts varQuery (initial []) _
                   [xCapture; longNameCapture] _ _));
    reflexivity.
Defined.

(** C7, the claim as stated fails: an empty [RegEx] is present, and the
    composed query is the base query without the constraint. *)
Lemma empty_RegEx_not_appended :
  RegEx (fields emptyRegEx) = Some EmptyString /\
  composeQuery (fields emptyRegEx) = Query (fields emptyRegEx) /\
  composeQuery (fields emptyRegEx) <> composedQuerySpec (fields emptyRegEx).
Proof. split; [reflexivity|]. split; [reflexivity|]. vm_compute. discriminate. Qed.


(** C9, the claim as stated fails: with pure validators, a pre-filter or a
    measurement callback that behaves otherwise on its second call changes
    the list of the second [scan]. *)
Lemma pure_validators_scan_twice_differ :
  Forall pureValidators [filtersOnce] /\
  snd (scan (initial [filtersOnce])) = Ok ["PF: x"] /\
  snd (scan (fst (scan (initial [filtersOnce])))) = Ok [] /\
  Forall pureValidators [measuresOnce] /\
  snd (scan (initial [measuresOnce])) = Ok ["Total: x"] /\
  snd (scan (fst (scan (initial [measuresOnce])))) = Ok [].
Proof.
  split; [by repeat constructor; apply pure_validators_of|].
  do 2 (split; [reflexivity|]).
  split; [by repeat constructor; apply pure_validators_of|].
  split; reflexivity.
Qed.

(** C9 (amended) on the sample rules. *)
Lemma scan_twice_same_findings_witness :
  snd (scan (fst (scan (initial sampleRules)))) = snd (scan (initial sampleRules)).
Proof. exact (scan_twice_same_findings (initial sampleRules) sampleRules_repeatable). Defined.

End Examples.

(** * The further properties on the sample hosts *)

Section MoreExamples.
Import Fixture Fixture3.
#[local] Existing Instance Fixture.host.
#[local] Existing Instance Fixture3.violations.

(** The text of every node of the second sample is the source between its
    offsets. *)
Example sample3_nodes_are_fragments :
  Forall (fun n => text n = js_substring source3 (startIndex n) (endIndex n))
         [program3; nLongName; nX; nY].
Proof. repeat constructor. Qed.

(** X1 on the sample state without rules. *)
Lemma scan_of_no_rules_witness :
  scan (initial []) = (initial [], Ok []).
Proof. exact (proj1 (scan_of_no_rules (initial []) eq_refl)). Defined.

(** X3 on the rule whose per-node validator throws on [x]: what was pushed
    for [longName] stays, and [y] is never validated. *)
Lemma validateNode_throw_keeps_earlier_findings_witness :
  scanResultList (fst (evalRule 0 (frame3 [throwsOnX]))) =
    ["earlier"; "bulk"; "seen longName"] /\
  console (heap (fst (evalRule 0 (frame3 [throwsOnX])))) =
    ["A tree-sitter query error occurred: TypeError: x"] /\
  List.filter isValidateNodeCall (trace (heap (fst (evalRule 0 (frame3 [throwsOnX]))))) =
    [validateNodeCall 0 (fields throwsOnX) nLongName;
     validateNodeCall 0 (fields throwsOnX) nX].
Proof.
  destruct (validateNode_throw_keeps_earlier_findings (frame3 [throwsOnX]) 0 throwsOnX
              0 0 0 0 [nLongName] [nY] nX ["bulk"] "TypeError: x"
              eq_refl eq_refl eq_refl eq_refl eq_refl eq_refl)
    as (_ & Hlist & Hcon & Hcalls).
  split; [exact Hlist|]. split; [exact Hcon | exact Hcalls].
Defined.

(** X4 on the rule whose query captures no node of the second sample. *)
Lemma no_captures_only_bulk_validator_witness :
  scanResultList (fst (evalRule 0 (frame3 [needsClass]))) =
    ["earlier"; "Needs a class: none"] /\
  List.filter isValidatorCall (trace (heap (fst (evalRule 0 (frame3 [needsClass]))))) =
    [EvCall M_validateNodes 0 (fields needsClass) []].
Proof.
  destruct (no_captures_only_bulk_validator (frame3 [needsClass]) 0 needsClass 0
              eq_refl eq_refl) as (Hlist & _ & Hcalls).
  split; [exact Hlist | exact Hcalls].
Defined.

(** A measuring rule on class declarations whose [measureNodes] throws on
    the empty list: no validator is called. *)
Example no_captures_measure_throws :
  let rule :=
    setFields measureThrows
      {| Name := "Measure throws"; Category := "Classes"; Context := Some "measure";
         Query := classQuery; RegEx := None; Priority := 1%Z |} in
  List.filter isValidatorCall (trace (heap (fst (evalRule 0 (frame3 [rule]))))) = [] /\
  scanResultList (fst (evalRule 0 (frame3 [rule]))) = ["earlier"].
Proof. split; reflexivity. Qed.

(** X5 on the first rule of the first sample. *)
Lemma calls_of_a_returning_rule_witness :
  exists scope,
    trace (heap (fst (evalRule 0 {| heap := initial sampleRules; scanResultList := [] |}))) =
      [EvCall M_preFilter 0 (fields shortNames) [program];
       EvQueryNew varQuery;
       EvCaptures varQuery scope;
       EvCall M_validateNodes 0 (fields shortNames) [idX; idLongName];
       validateNodeCall 0 (fields shortNames) idX;
       validateNodeCall 0 (fields shortNames) idLongName].
Proof.
  destruct (calls_of_a_returning_rule
              {| heap := initial sampleRules; scanResultList := [] |} 0 shortNames
              0 0 0 [idX; idLongName] [] eq_refl eq_refl eq_refl eq_refl eq_refl)
    as ((scope & Hcalls) & _ & _).
  exists scope. exact Hcalls.
Defined.

(** X6 on the rule whose measurement throws. *)
Lemma measureNodes_throw_skips_validators_witness :
  scanResultList (fst (evalRule 0 (frame3 [measureThrows]))) = ["earlier"] /\
  console (heap (fst (evalRule 0 (frame3 [measureThrows])))) =
    ["A tree-sitter query error occurred: RangeError"] /\
  List.filter isValidatorCall (trace (heap (fst (evalRule 0 (frame3 [measureThrows]))))) = [].
Proof.
  destruct (measureNodes_throw_skips_validators (frame3 [measureThrows]) 0 measureThrows
              0 0 [nLongName; nX; nY] "RangeError" eq_refl eq_refl eq_refl)
    as (_ & Hlist & Hcon & Hcalls).
  split; [exact Hlist|]. split; [exact Hcon | exact Hcalls].
Defined.

(** X8 on a rule set with a priority below zero and one far above the range. *)
Example sample_priorities_after_run :
  map (fun r => Priority (fields r))
      (scannerRules (this (fst (scan (initial3 [needsClass; totalVariables]))))) =
    [(-5)%Z; 3%Z].
Proof. reflexivity. Qed.

(** X9 on a malformed query. *)
Lemma dump_throws_query_errors_witness :
  snd (dump "((" (initial [])) = Throw "TSQueryErrorSyntax" /\
  console (fst (dump "((" (initial []))) = [].
Proof. exact (dump_throws_query_errors "((" (initial []) _ (or_introl eq_refl)). Defined.

(** X11 on the first sample, for the query on the declared variables. *)
Lemma legacy_dump_prints_and_returns_nothing_witness :
  snd (Legacy.dump varQuery (initial [])) = Ok tt /\
  console (fst (Legacy.dump varQuery (initial []))) =
    [Legacy.JSON_stringify_DumpResults
       [{| Legacy.SourceFragment := "x"; Legacy.StartIndex := 14; Legacy.EndIndex := 15 |};
        {| Legacy.SourceFragment := "longName"; Legacy.StartIndex := 21;
           Legacy.EndIndex := 29 |}]].
Proof.
  destruct (legacy_dump_prints_and_returns_nothing varQuery (initial []) _
              [{| pattern := 0; captures_of := [xCapture] |};
               {| pattern := 0; captures_of := [longNameCapture] |}] eq_refl eq_refl)
    as (Hret & Hcon & _).
  split; [exact Hret | exact Hcon].
Defined.

(** X12 on two rules of two categories: both categories get an entry, and
    the invalid names [x] and [y] are reported under neither. *)
Lemma legacy_scan_reports_no_violation_witness :
  snd (LegacyScan._scan "scan" (legacyState (Some [longerThan3; totals]))) =
    Ok {| LegacyScan.entries := [("Variables", []); ("Totals", [])];
          LegacyScan.properties := [] |} /\
  Forall (fun kv => snd kv = [])
         [("Variables", @nil (string * SyntaxNode)); ("Totals", [])].
Proof.
  split; [reflexivity|].
  exact (proj1 (legacy_scan_reports_no_violation "scan"
                  (legacyState (Some [longerThan3; totals])) [longerThan3; totals] _
                  eq_refl eq_refl)).
Defined.

(** X13: a rule without [Context] makes the older scan throw, and so does a
    rule list that is [null]. *)
Example legacy_scan_throws_cases :
  snd (LegacyScan._scan "scan" (legacyState (Some [longerThan3; withoutContext; totals]))) =
    Throw "TypeError: rule.Context.includes" /\
  snd (LegacyScan._scan "scan" (legacyState None)) =
    Throw "TypeError: this._rules is not iterable" /\
  snd (LegacyScan.measure tt tt (legacyState (Some []))) = Ok LegacyScan.Map_new.
Proof. repeat split. Qed.

(** X14 on a scan: the rule of context [measure] is not evaluated. *)
Lemma legacy_scan_gates_rules_by_context_witness :
  exists evs,
    LegacyScan.ltrace (fst (LegacyScan._scan "scan" (legacyState (Some [totals; longerThan3]))))
      = [] ++ evs /\
    Forall (LegacyScan.inContext "scan" [totals; longerThan3]) evs.
Proof.
  exact (legacy_scan_gates_rules_by_context "scan"
           (legacyState (Some [totals; longerThan3])) [totals; longerThan3] eq_refl).
Defined.

Example legacy_scan_skips_measure_rule :
  map LegacyScan.eventIndex
      (LegacyScan.ltrace (fst (LegacyScan._scan "scan"
                                 (legacyState (Some [totals; longerThan3]))))) =
    [1; 1; 1; 1; 1].
Proof. reflexivity. Qed.

(** X15 on the length rule: [longName] is valid, [x] is not, [y] is never
    looked at. *)
Lemma legacy_invalid_capture_stops_rule_witness :
  LegacyScan.lconsole (LegacyScan.lheap
      (fst (LegacyScan.scanRule "scan" 0 longerThan3 (legacyFrame (Some [longerThan3]))))) =
    ["A tree-sitter query error occurred: TypeError: resultMap[scan,measure].push"] /\
  LegacyScan.ltrace (LegacyScan.lheap
      (fst (LegacyScan.scanRule "scan" 0 longerThan3 (legacyFrame (Some [longerThan3]))))) =
    [LegacyScan.LQueryNew 0 varQuery;
     LegacyScan.LMatches 0 varQuery program3;
     LegacyScan.LValidate 0 (LegacyScan.rfields longerThan3) nLongName;
     LegacyScan.LValidate 0 (LegacyScan.rfields longerThan3) nX;
     LegacyScan.LViolationNew 0 nX].
Proof.
  destruct (legacy_invalid_capture_stops_rule "scan" 0 longerThan3
              (legacyFrame (Some [longerThan3])) "scan,measure" _
              [ {| pattern := 0; captures_of := [cLongName] |};
                {| pattern := 0; captures_of := [cX] |};
                {| pattern := 0; captures_of := [cY] |} ]
              [cLongName] [cY] cX 0 0
              eq_refl eq_refl eq_refl eq_refl eq_refl eq_refl eq_refl eq_refl)
    as (_ & _ & Hcon & Htr).
  split; [exact Hcon | exact Htr].
Defined.

End MoreExamples.
